(** * sahi/prediction.py: prediction records, coordinate remapping and batching

    A shallow embedding of [src/sahi/prediction.py]:
    - [PredictionScore]   (lines 9-28)
    - [ObjectPrediction]  (lines 31-109)
    - [PredictionInput]   (lines 112-142)

    Python floats are IEEE-754 binary64 numbers and are modelled by Rocq's
    primitive floats; Python lists by [list]; [None] by [option]; raised
    exceptions by the [Err] branch of [result]. *)

From Stdlib Require Import ZArith Floats Lia.
From stdpp Require Import base option list strings gmap.

Local Open Scope Z_scope.

(** ** Exceptions and the error monad *)

Inductive exn : Type :=
| ValueError            (* numpy: reduction over a zero-size array *)
| IndexError            (* subscript out of range *)
| EmptyBatch            (* stacking an empty sequence of tensors *)
| ShapeMismatch         (* stacking tensors of different shapes *)
| AttributeError         (* attribute of an object that has none of that name *)
| TypeError.            (* operation on a value of the wrong kind *)

Inductive result (A : Type) : Type :=
| Ok (a : A)
| Err (e : exn).
Arguments Ok {A} a.
Arguments Err {A} e.

#[global] Instance result_ret : MRet result := fun A a => Ok a.
#[global] Instance result_bind : MBind result := fun A B f m =>
  match m with
  | Ok a => f a
  | Err e => Err e
  end.

Definition raises {A} (m : result A) : Prop := ∃ e, m = Err e.

(** Subscript [l[i]] of a Python list. *)
Definition subscript {A} (l : list A) (i : nat) : result A :=
  match l !! i with
  | Some a => Ok a
  | None => Err IndexError
  end.

(** ** Scalars handed to [PredictionScore]

    A score is either a plain Python [float] or a numpy boxed scalar
    ([np.float32], [np.float64]), whose value is again a binary64 number.
    Python is dynamically typed: both kinds inhabit the same type of
    run-time values. *)

Inductive pynum : Type :=
| PyFloat (x : float)    (* type(score).__module__ == "builtins" *)
| NpFloat (x : float).   (* type(score).__module__ == "numpy" *)

Definition type_module (v : pynum) : string :=
  match v with
  | PyFloat _ => "builtins"
  | NpFloat _ => "numpy"
  end.

(** [copy.deepcopy] of an immutable scalar: a new box around the same value. *)
Definition deepcopy (v : pynum) : pynum :=
  match v with
  | PyFloat x => PyFloat x
  | NpFloat x => NpFloat x
  end.

(** [ndarray.tolist] / [generic.tolist] on a scalar: the Python number. *)
Definition tolist (v : pynum) : pynum :=
  match v with
  | PyFloat x => PyFloat x
  | NpFloat x => PyFloat x
  end.

(** The binary64 number a value denotes; comparison operators read it. *)
Definition float_of (v : pynum) : float :=
  match v with
  | PyFloat x => x
  | NpFloat x => x
  end.

Definition is_plain (v : pynum) : Prop := ∃ x, v = PyFloat x.

(** [a > b] on numbers. *)
Definition py_gt (a b : pynum) : bool := PrimFloat.ltb (float_of b) (float_of a).

(** ** class PredictionScore *)

Module PredictionScore.

Record t : Type := mk { score : pynum }.

(** [PredictionScore.__init__], lines 10-19. *)
Definition init (score : pynum) : result t :=
  let score :=
    if decide (type_module score = "numpy") then tolist (deepcopy score)
    else score in
  Ok {| score := score |}.

(** [PredictionScore.is_greater_than_threshold], lines 21-25. *)
Definition is_greater_than_threshold (self : t) (threshold : pynum) : bool :=
  py_gt (score self) threshold.

End PredictionScore.

(** ** Exact values of binary64 numbers

    Every finite binary64 number is an integer multiple of [2^-1074]; its
    exact value is kept as that integer.  Infinities and NaN are kept apart. *)

Inductive xval : Type :=
| XNaN
| XInf (negative : bool)
| XFin (units : Z).

Definition SFvalue (f : spec_float) : xval :=
  match f with
  | S754_nan => XNaN
  | S754_infinity s => XInf s
  | S754_zero _ => XFin 0
  | S754_finite s m e => XFin ((if s then -1 else 1) * (Z.pos m * 2 ^ (e + 1074)))
  end.

Definition value (x : float) : xval := SFvalue (Prim2SF x).

(** The strict order of the extended reals; NaN is unordered. *)
Definition xlt (a b : xval) : Prop :=
  match a, b with
  | XNaN, _ | _, XNaN => False
  | XInf true, XInf true => False
  | XInf true, _ => True
  | XInf false, _ => False
  | XFin _, XInf s => s = false
  | XFin x, XFin y => x < y
  end.

(** ** The geometry collaborator ([sahi.annotation])

    [prediction.py] imports [ObjectAnnotation] from [sahi.annotation]; that
    module, with its [BoundingBox], [Mask] and [Category] classes, is not
    among the sources.  The source only shows how it is used: a box answers
    [get_shifted_box()] and [to_voc_bbox()] without arguments, a mask answers
    [get_shifted_mask()], [bool_mask] and [get_full_image_size()], a category
    has [id] and [name]. *)

Module Category.

(** Modelled from the spec: the Category class of [sahi.annotation] is
    missing; a category label is a required integer id and an optional,
    display-only name. *)
Record t : Type := mk { id : Z; name : option string }.

End Category.

Module BoundingBox.

(** Modelled from the spec: the BoundingBox class of [sahi.annotation] is
    missing; a box is an axis-aligned region [min_x, min_y, max_x, max_y]
    in the coordinate frame implied by the shift offset [shift_x, shift_y]
    of its tile. *)
Record t : Type := mk {
  minx : Z; miny : Z; maxx : Z; maxy : Z;
  shift_x : Z; shift_y : Z }.

(** Modelled from the spec: the BoundingBox constructor is missing; it takes
    the box as four numbers and the shift as [shift_x, shift_y], and a
    malformed region fails inside the region component. *)
Definition init (box : list Z) (shift_amount : list Z) : result t :=
  x0 ← subscript box 0; y0 ← subscript box 1;
  x1 ← subscript box 2; y1 ← subscript box 3;
  sx ← subscript shift_amount 0; sy ← subscript shift_amount 1;
  Ok {| minx := x0; miny := y0; maxx := x1; maxy := y1;
        shift_x := sx; shift_y := sy |}.

(** Modelled from the spec: [get_shifted_box] is missing; box translation
    moves the box by the shift offset into the full-image frame, where no
    shift is pending. *)
Definition get_shifted_box (self : t) : t :=
  {| minx := minx self + shift_x self; miny := miny self + shift_y self;
     maxx := maxx self + shift_x self; maxy := maxy self + shift_y self;
     shift_x := 0; shift_y := 0 |}.

(** Modelled from the spec: [to_voc_bbox] is missing; it converts to the
    axis-aligned min/max form [min_x, min_y, max_x, max_y]. *)
Definition to_voc_bbox (self : t) : list Z :=
  [minx self; miny self; maxx self; maxy self].

End BoundingBox.

Module Mask.

(** Modelled from the spec: the Mask class of [sahi.annotation] is missing;
    a mask is a 2D boolean region (rows of pixels) aligned to the frame of
    the box, with the shift offset of its tile and its own record of the
    full-image size [height, width], which may be unset. *)
Record t : Type := mk {
  bool_mask : list (list bool);
  shift_x : Z; shift_y : Z;
  full_image_size : option (list Z) }.

(** Modelled from the spec: the Mask constructor is missing; it takes the
    boolean array, the shift [shift_x, shift_y] and the full-image size. *)
Definition init (bool_mask : list (list bool)) (shift_amount : list Z)
    (full_image_size : option (list Z)) : result t :=
  sx ← subscript shift_amount 0; sy ← subscript shift_amount 1;
  Ok {| bool_mask := bool_mask; shift_x := sx; shift_y := sy;
        full_image_size := full_image_size |}.

(** A boolean array moved right by [dx] and down by [dy] pixels: the pixel
    at row [y], column [x] goes to row [y + dy], column [x + dx]. *)
Definition translate (dx dy : Z) (rows : list (list bool)) : list (list bool) :=
  let width := length (List.hd [] rows) in
  replicate (Z.to_nat dy) (replicate (Z.to_nat dx + width) false)
  ++ map (fun row => replicate (Z.to_nat dx) false ++ row) rows.

(** Modelled from the spec: [get_shifted_mask] is missing; mask translation
    moves the mask by its shift offset, like the box, into the full-image
    frame; the result keeps the mask's record of the full-image size. *)
Definition get_shifted_mask (self : t) : t :=
  {| bool_mask := translate (shift_x self) (shift_y self) (bool_mask self);
     shift_x := 0; shift_y := 0;
     full_image_size := full_image_size self |}.

(** Modelled from the spec: the accessor for the mask's own recorded
    full-image size is missing. *)
Definition get_full_image_size (self : t) : option (list Z) :=
  full_image_size self.

(** Number of set pixels. *)
Definition pixel_count (rows : list (list bool)) : nat :=
  length (filter (fun b => b = true) (concat rows)).

End Mask.

Module ObjectAnnotation.

(** Modelled from the spec: the ObjectAnnotation base class of
    [sahi.annotation] is missing; an annotated region holds a category, a
    box and an optional mask in one frame, given by [shift_amount] and
    [full_image_size]. *)
Record t : Type := mk {
  bbox : BoundingBox.t;
  mask : option Mask.t;
  category : Category.t;
  shift_amount : list Z;
  full_image_size : option (list Z) }.

(** Modelled from the spec: the ObjectAnnotation constructor is missing; it
    builds the box and, when a boolean mask is given, the mask, both in the
    frame of [shift_amount] and [full_image_size], and the category. *)
Definition init (bbox : list Z) (category_id : Z)
    (bool_mask : option (list (list bool))) (category_name : option string)
    (shift_amount : list Z) (full_image_size : option (list Z)) : result t :=
  box ← BoundingBox.init bbox shift_amount;
  mask ← match bool_mask with
         | Some bm => m ← Mask.init bm shift_amount full_image_size; Ok (Some m)
         | None => Ok None
         end;
  Ok {| bbox := box; mask := mask;
        category := {| Category.id := category_id; Category.name := category_name |};
        shift_amount := shift_amount; full_image_size := full_image_size |}.

End ObjectAnnotation.

(** ** class ObjectPrediction(ObjectAnnotation) *)

Module ObjectPrediction.

(** An [ObjectPrediction] is an [ObjectAnnotation] with a [score]. *)
Record t : Type := mk {
  score : PredictionScore.t;
  base : ObjectAnnotation.t }.

Definition bbox (self : t) := ObjectAnnotation.bbox (base self).
Definition mask (self : t) := ObjectAnnotation.mask (base self).
Definition category (self : t) := ObjectAnnotation.category (base self).
Definition shift_amount (self : t) := ObjectAnnotation.shift_amount (base self).
Definition full_image_size (self : t) := ObjectAnnotation.full_image_size (base self).

(** Default arguments of [__init__], lines 43-44. *)
Definition default_shift_amount : list Z := [0; 0].
Definition default_full_image_size : option (list Z) := Some [1024; 1024].

(** [ObjectPrediction.__init__], lines 36-75. *)
Definition init (bbox : list Z) (score : pynum) (category_id : Z)
    (category_name : option string) (bool_mask : option (list (list bool)))
    (shift_amount : list Z) (full_image_size : option (list Z)) : result t :=
  score ← PredictionScore.init score;
  base ← ObjectAnnotation.init bbox category_id bool_mask category_name
           shift_amount full_image_size;
  Ok {| score := score; base := base |}.

(** [ObjectPrediction.get_shifted_object_prediction], lines 77-102.
    [if self.mask:] tests an object reference: a mask is true, [None] is not. *)
Definition get_shifted_object_prediction (self : t) : result t :=
  match mask self with
  | Some self_mask =>
      init
        (BoundingBox.to_voc_bbox (BoundingBox.get_shifted_box (bbox self)))
        (PredictionScore.score (score self))
        (Category.id (category self))
        (Category.name (category self))
        (Some (Mask.bool_mask (Mask.get_shifted_mask self_mask)))
        [0; 0]
        (Mask.get_full_image_size (Mask.get_shifted_mask self_mask))
  | None =>
      init
        (BoundingBox.to_voc_bbox (BoundingBox.get_shifted_box (bbox self)))
        (PredictionScore.score (score self))
        (Category.id (category self))
        (Category.name (category self))
        None
        [0; 0]
        None
  end.

End ObjectPrediction.

(** ** The object store

    Python objects live in a heap and are handled by reference: an object is
    a dictionary of attributes, an attribute holds a value or a reference,
    and a method reads and assigns attributes of the objects it reaches.
    The classes above describe the values of the fields; here the same
    classes are written as they run, on the heap. *)

Definition loc := positive.

(** Values held by attributes and local variables.  Lists and arrays are
    kept as values: the source never assigns into one. *)
Inductive val : Type :=
| VNone
| VNum (x : pynum)
| VInt (z : Z)
| VStr (s : string)
| VList (l : list Z)
| VArray (a : list (list bool))
| VRef (l : loc).

(** An object is its attribute dictionary; the heap maps references to
    objects. *)
Abbreviation heap := (gmap loc (gmap string val)).

(** Computations that read and write the heap and may raise. *)
Definition M (A : Type) : Type := heap → result (A * heap).

#[global] Instance M_ret : MRet M := λ A a h, Ok (a, h).
#[global] Instance M_bind : MBind M := λ A B f m h,
  match m h with
  | Ok (a, h') => f a h'
  | Err e => Err e
  end.

Definition raise {A} (e : exn) : M A := λ _, Err e.

Definition lift {A} (r : result A) : M A := λ h,
  match r with
  | Ok a => Ok (a, h)
  | Err e => Err e
  end.

(** Allocation of an instance, before [__init__] runs on it. *)
Definition new_object : M loc := λ h,
  let l := fresh (dom h) in Ok (l, <[l := ∅]> h).

(** [l.name] *)
Definition getattr (l : loc) (name : string) : M val := λ h,
  match h !! l with
  | Some o =>
      match o !! name with
      | Some v => Ok (v, h)
      | None => Err AttributeError
      end
  | None => Err AttributeError
  end.

(** [l.name = v] *)
Definition setattr (l : loc) (name : string) (v : val) : M unit := λ h,
  match h !! l with
  | Some o => Ok (tt, <[l := <[name := v]> o]> h)
  | None => Err AttributeError
  end.

(** Reading an attribute that is then used as an object, a number, ... *)
Definition get_ref (l : loc) (name : string) : M loc :=
  v ← getattr l name;
  match v with
  | VRef r => mret r
  | _ => raise AttributeError
  end.

Definition get_int (l : loc) (name : string) : M Z :=
  v ← getattr l name;
  match v with
  | VInt z => mret z
  | _ => raise TypeError
  end.

Definition get_num (l : loc) (name : string) : M pynum :=
  v ← getattr l name;
  match v with
  | VNum x => mret x
  | _ => raise TypeError
  end.

Definition get_array (l : loc) (name : string) : M (list (list bool)) :=
  v ← getattr l name;
  match v with
  | VArray a => mret a
  | _ => raise TypeError
  end.

Definition get_opt_list (l : loc) (name : string) : M (option (list Z)) :=
  v ← getattr l name;
  match v with
  | VList x => mret (Some x)
  | VNone => mret None
  | _ => raise TypeError
  end.

Definition get_opt_str (l : loc) (name : string) : M (option string) :=
  v ← getattr l name;
  match v with
  | VStr s => mret (Some s)
  | VNone => mret None
  | _ => raise TypeError
  end.

Definition of_opt_list (o : option (list Z)) : val :=
  match o with
  | Some l => VList l
  | None => VNone
  end.

Definition of_opt_str (o : option string) : val :=
  match o with
  | Some s => VStr s
  | None => VNone
  end.

(** The truth value of [if v:]; an object without [__bool__] is true. *)
Definition truthy_val (v : val) : bool :=
  match v with
  | VNone => false
  | VNum x => negb (PrimFloat.eqb (float_of x) 0%float)
  | VInt z => negb (z =? 0)
  | VStr s => negb (bool_decide (s = ""))
  | VList l => negb (bool_decide (l = []))
  | VArray a => negb (bool_decide (a = []))
  | VRef _ => true
  end.

(** A run of attribute assignments [self.name = v]. *)
Fixpoint init_attrs (self : loc) (fields : list (string * val)) : M unit :=
  match fields with
  | [] => mret tt
  | (name, v) :: fields => setattr self name v;; init_attrs self fields
  end.

(** A constructor call whose [__init__] only assigns the given attributes. *)
Definition construct (fields : list (string * val)) : M loc :=
  self ← new_object; init_attrs self fields;; mret self.

(** The attribute dictionary those assignments leave. *)
Definition attrs_of (fields : list (string * val)) : gmap string val :=
  fold_left (λ o kv, <[kv.1 := kv.2]> o) fields ∅.

(** The attribute of a PredictionScore (line 19). *)
Definition score_fields (s : PredictionScore.t) : list (string * val) :=
  [("score", VNum (PredictionScore.score s))].

(** Modelled from the spec: the attributes of the missing Category, BoundingBox
    and Mask classes and of the ObjectAnnotation base class are the fields of
    [Category.t], [BoundingBox.t], [Mask.t] and [ObjectAnnotation.t]. *)
Definition category_fields (c : Category.t) : list (string * val) :=
  [("id", VInt (Category.id c)); ("name", of_opt_str (Category.name c))].

Definition box_fields (b : BoundingBox.t) : list (string * val) :=
  [("minx", VInt (BoundingBox.minx b)); ("miny", VInt (BoundingBox.miny b));
   ("maxx", VInt (BoundingBox.maxx b)); ("maxy", VInt (BoundingBox.maxy b));
   ("shift_x", VInt (BoundingBox.shift_x b));
   ("shift_y", VInt (BoundingBox.shift_y b))].

Definition mask_fields (m : Mask.t) : list (string * val) :=
  [("bool_mask", VArray (Mask.bool_mask m));
   ("shift_x", VInt (Mask.shift_x m)); ("shift_y", VInt (Mask.shift_y m));
   ("full_image_size", of_opt_list (Mask.full_image_size m))].

Definition prediction_fields (score bbox : loc) (mask : val) (category : loc)
    (shift_amount : list Z) (full_image_size : option (list Z))
    : list (string * val) :=
  [("score", VRef score); ("bbox", VRef bbox); ("mask", mask);
   ("category", VRef category); ("shift_amount", VList shift_amount);
   ("full_image_size", of_opt_list full_image_size)].

Module Store.

(** [PredictionScore.__init__], lines 10-19, on the instance [self]. *)
Definition PredictionScore_init (self : loc) (score : pynum) : M unit :=
  let score :=
    if decide (type_module score = "numpy") then tolist (deepcopy score)
    else score in
  setattr self "score" (VNum score).

(** [PredictionScore(score)] *)
Definition new_PredictionScore (score : pynum) : M loc :=
  self ← new_object; PredictionScore_init self score;; mret self.

(** Modelled from the spec: the BoundingBox constructor is missing; see
    [BoundingBox.init]. *)
Definition new_BoundingBox (box shift_amount : list Z) : M loc :=
  b ← lift (BoundingBox.init box shift_amount);
  construct (box_fields b).

(** Modelled from the spec: the attributes of the box at [self], read one by
    one. *)
Definition read_box (self : loc) : M BoundingBox.t :=
  minx ← get_int self "minx"; miny ← get_int self "miny";
  maxx ← get_int self "maxx"; maxy ← get_int self "maxy";
  shift_x ← get_int self "shift_x"; shift_y ← get_int self "shift_y";
  mret (BoundingBox.mk minx miny maxx maxy shift_x shift_y).

(** Modelled from the spec: [get_shifted_box] is missing; it reads the box
    and returns a new box object, translated (see
    [BoundingBox.get_shifted_box]); the spec makes the shift an allocating
    transform that leaves the original unchanged. *)
Definition get_shifted_box (self : loc) : M loc :=
  b ← read_box self;
  construct (box_fields (BoundingBox.get_shifted_box b)).

(** Modelled from the spec: [to_voc_bbox] is missing; see
    [BoundingBox.to_voc_bbox]. *)
Definition to_voc_bbox (self : loc) : M (list Z) :=
  b ← read_box self;
  mret (BoundingBox.to_voc_bbox b).

(** Modelled from the spec: the Mask constructor is missing; see
    [Mask.init]. *)
Definition new_Mask (bool_mask : list (list bool)) (shift_amount : list Z)
    (full_image_size : option (list Z)) : M loc :=
  m ← lift (Mask.init bool_mask shift_amount full_image_size);
  construct (mask_fields m).

(** Modelled from the spec: the attributes of the mask at [self], read one
    by one. *)
Definition read_mask (self : loc) : M Mask.t :=
  bool_mask ← get_array self "bool_mask";
  shift_x ← get_int self "shift_x"; shift_y ← get_int self "shift_y";
  full_image_size ← get_opt_list self "full_image_size";
  mret (Mask.mk bool_mask shift_x shift_y full_image_size).

(** Modelled from the spec: [get_shifted_mask] is missing; it reads the
    mask and returns a new mask object, translated (see
    [Mask.get_shifted_mask]), leaving the original unchanged. *)
Definition get_shifted_mask (self : loc) : M loc :=
  m ← read_mask self;
  construct (mask_fields (Mask.get_shifted_mask m)).

(** Modelled from the spec: the accessor [get_full_image_size] is missing. *)
Definition get_full_image_size (self : loc) : M (option (list Z)) :=
  get_opt_list self "full_image_size".

(** Modelled from the spec: the ObjectAnnotation constructor is missing; on
    the instance [self] it builds the box, the mask when a boolean mask is
    given, and the category, and assigns them with [shift_amount] and
    [full_image_size] (see [ObjectAnnotation.init]). *)
Definition ObjectAnnotation_init (self : loc) (bbox : list Z) (category_id : Z)
    (bool_mask : option (list (list bool))) (category_name : option string)
    (shift_amount : list Z) (full_image_size : option (list Z)) : M unit :=
  box ← new_BoundingBox bbox shift_amount;
  mask ← match bool_mask with
         | Some bm => m ← new_Mask bm shift_amount full_image_size; mret (VRef m)
         | None => mret VNone
         end;
  category ← construct (category_fields (Category.mk category_id category_name));
  init_attrs self
    [("bbox", VRef box); ("mask", mask); ("category", VRef category);
     ("shift_amount", VList shift_amount);
     ("full_image_size", of_opt_list full_image_size)].

(** [ObjectPrediction.__init__], lines 36-75, on the instance [self]. *)
Definition ObjectPrediction_init (self : loc) (bbox : list Z) (score : pynum)
    (category_id : Z) (category_name : option string)
    (bool_mask : option (list (list bool))) (shift_amount : list Z)
    (full_image_size : option (list Z)) : M unit :=
  s ← new_PredictionScore score;
  setattr self "score" (VRef s);;
  ObjectAnnotation_init self bbox category_id bool_mask category_name
    shift_amount full_image_size.

(** [ObjectPrediction(...)] *)
Definition new_ObjectPrediction (bbox : list Z) (score : pynum)
    (category_id : Z) (category_name : option string)
    (bool_mask : option (list (list bool))) (shift_amount : list Z)
    (full_image_size : option (list Z)) : M loc :=
  self ← new_object;
  ObjectPrediction_init self bbox score category_id category_name bool_mask
    shift_amount full_image_size;;
  mret self.

(** [ObjectPrediction.get_shifted_object_prediction], lines 77-102, on the
    object at [self]; the keyword arguments are evaluated in the order of
    the source. *)
Definition get_shifted_object_prediction (self : loc) : M loc :=
  mask ← getattr self "mask";
  if truthy_val mask then
    self_bbox ← get_ref self "bbox";
    shifted_box ← get_shifted_box self_bbox;
    bbox ← to_voc_bbox shifted_box;
    self_category ← get_ref self "category";
    category_id ← get_int self_category "id";
    self_score ← get_ref self "score";
    score ← get_num self_score "score";
    self_mask ← get_ref self "mask";
    shifted_mask ← get_shifted_mask self_mask;
    bool_mask ← get_array shifted_mask "bool_mask";
    self_category ← get_ref self "category";
    category_name ← get_opt_str self_category "name";
    self_mask ← get_ref self "mask";
    shifted_mask ← get_shifted_mask self_mask;
    full_image_size ← get_full_image_size shifted_mask;
    new_ObjectPrediction bbox score category_id category_name (Some bool_mask)
      [0; 0] full_image_size
  else
    self_bbox ← get_ref self "bbox";
    shifted_box ← get_shifted_box self_bbox;
    bbox ← to_voc_bbox shifted_box;
    self_category ← get_ref self "category";
    category_id ← get_int self_category "id";
    self_score ← get_ref self "score";
    score ← get_num self_score "score";
    self_category ← get_ref self "category";
    category_name ← get_opt_str self_category "name";
    new_ObjectPrediction bbox score category_id category_name None [0; 0] None.

End Store.

(** The object graph of a record: the heap holds at [self] an
    ObjectPrediction whose score, box, category and mask objects are at
    [ls], [lb], [lc] and [vm], and hold the fields of [r]. *)
Definition object_graph (h : heap) (self ls lb lc : loc) (vm : val)
    (r : ObjectPrediction.t) : Prop :=
  h !! self = Some (attrs_of (prediction_fields ls lb vm lc
                      (ObjectPrediction.shift_amount r)
                      (ObjectPrediction.full_image_size r)))
  ∧ h !! ls = Some (attrs_of (score_fields (ObjectPrediction.score r)))
  ∧ h !! lb = Some (attrs_of (box_fields (ObjectPrediction.bbox r)))
  ∧ h !! lc = Some (attrs_of (category_fields (ObjectPrediction.category r)))
  ∧ match ObjectPrediction.mask r with
    | Some m => ∃ lm, vm = VRef lm ∧ h !! lm = Some (attrs_of (mask_fields m))
    | None => vm = VNone
    end.

Definition represents (h : heap) (self : loc) (r : ObjectPrediction.t) : Prop :=
  ∃ ls lb lc vm, object_graph h self ls lb lc vm r.

(** What an allocating call guarantees on the heap [h]: it returns, every
    object of the heap is kept as it is, and the reference it returns was
    not in use and now holds [o]. *)
Definition allocates_at (h : heap) (m : M loc) (o : gmap string val) : Prop :=
  ∃ l h', m h = Ok (l, h') ∧ h ⊆ h' ∧ h !! l = None ∧ h' !! l = Some o.

Definition allocates (m : M loc) (o : gmap string val) : Prop :=
  ∀ h, allocates_at h m o.

(** ** Images and tensors

    An image is a numpy array of height x width x channel; a tensor is laid
    out channel x height x width.  Both are nested lists of binary64 numbers. *)

Abbreviation array3 := (list (list (list float))).

(** The shape of a nested list: the length of every innermost list, in
    place.  Two arrays have the same shape iff these agree. *)
Definition shape (a : array3) : list (list nat) := map (map length) a.

#[global] Instance shape_eq_dec : EqDecision (list (list nat)) := _.

(** All scalars of an array, in row-major order ([ndarray.flat]). *)
Definition flat (a : array3) : list float := concat (concat a).

(** [np.maximum] on two scalars: NaN wins, otherwise the larger. *)
Definition np_maximum (a b : float) : float :=
  if (PrimFloat.leb b a || PrimFloat.is_nan a)%bool then a else b.

(** [np.max(image)]: the maximum over all scalars; a zero-size array has no
    maximum and raises [ValueError]. *)
Definition np_max (image : array3) : result float :=
  match flat image with
  | [] => Err ValueError
  | x :: xs => Ok (fold_left np_maximum xs x)
  end.

(** [image / m]: every scalar divided by [m]; division by zero does not
    raise (it yields an infinity or NaN). *)
Definition np_divide (image : array3) (m : float) : array3 :=
  map (map (map (fun p => PrimFloat.div p m))) image.

(** Modelled from the spec: [to_float_tensor] of [sahi.utils.torch] is
    missing; it converts an image into the tensor representation expected by
    the detector, in channel-first layout: entry [c][h][w] of the tensor is
    entry [h][w][c] of the image. *)
Definition to_float_tensor (image : array3) : array3 :=
  let channels := length (List.hd [] (List.hd [] image)) in
  map (fun c => map (map (fun px => List.nth c px 0%float)) image)
      (seq 0 channels).

(** Modelled from the spec: [torch_stack] of [sahi.utils.torch] is missing;
    it concatenates the tensors along a new leading batch dimension, in
    order; the sequence must be non-empty, and tensors of different shapes
    fail at this step. *)
Definition torch_stack (tensors : list array3) : result (list array3) :=
  match tensors with
  | [] => Err EmptyBatch
  | first :: _ =>
      if forallb (fun t => bool_decide (shape t = shape first)) tensors
      then Ok tensors
      else Err ShapeMismatch
  end.

(** The truth value of an optional list argument: [None] and the empty list
    are false. *)
Definition truthy {A} (l : option (list A)) : bool :=
  match l with
  | Some (_ :: _) => true
  | _ => false
  end.

(** A [for] loop over a list whose body may raise. *)
Fixpoint for_each {A S} (body : S → A → result S) (l : list A) (s : S) : result S :=
  match l with
  | [] => Ok s
  | a :: l' => s' ← body s a; for_each body l' s'
  end.

(** ** class PredictionInput *)

Module PredictionInput.

Record t : Type := mk {
  image_list : list array3;
  batch_image_tensor : list array3;
  shift_amount_list : list (list Z);
  full_image_size : option (list Z) }.

(** The body of the loop of lines 129-133. *)
Definition loop_body (image_tensor_list : list array3) (image : array3)
    : result (list array3) :=
  m ← np_max image;
  let image := np_divide image m in
  Ok (image_tensor_list ++ [to_float_tensor image]).

(** [PredictionInput.__init__], lines 113-142. *)
Definition init (image_list : list array3)
    (shift_amount_list : option (list (list Z)))
    (full_image_size : option (list Z)) : result t :=
  image_tensor_list ← for_each loop_body image_list [];
  batch_image_tensor ← torch_stack image_tensor_list;
  let shift_amount_list :=
    if truthy shift_amount_list then default [] shift_amount_list
    else map (fun ind => [0; 0]) (seq 0 (length image_list)) in
  Ok {| image_list := image_list;
        batch_image_tensor := batch_image_tensor;
        shift_amount_list := shift_amount_list;
        full_image_size := full_image_size |}.

End PredictionInput.

(** The image lists the constructor is meant for: a non-empty sequence of
    images of one shape, each with at least one scalar. *)
Definition same_shaped (image_list : list array3) : Prop :=
  ∀ a b, a ∈ image_list → b ∈ image_list → shape a = shape b.

Definition stackable (image_list : list array3) : Prop :=
  image_list ≠ [] ∧ same_shaped image_list ∧ ∀ a, a ∈ image_list → flat a ≠ [].

(** The tensor of one image: the image divided by its own maximum, channel
    first.  (The loop body computes it; see [loop_body_Ok].) *)
Definition image_tensor (image : array3) : array3 :=
  match np_max image with
  | Ok m => to_float_tensor (np_divide image m)
  | Err _ => []
  end.

(** The shape of [to_float_tensor image] as a function of the shape of
    [image]. *)
Definition tensor_shape (s : list (list nat)) : list (list nat) :=
  map (λ _, map length s) (seq 0 (List.hd 0%nat (List.hd [] s))).

(** ** Records built by the constructor, and the closed form of the shift *)

Definition constructed (r : ObjectPrediction.t) : Prop :=
  ∃ bbox score category_id category_name bool_mask shift_amount full_image_size,
    ObjectPrediction.init bbox score category_id category_name bool_mask
      shift_amount full_image_size = Ok r.

(** The record [get_shifted_object_prediction] returns, field by field
    (see [get_shifted_object_prediction_eq]). *)
Definition shifted_record (r : ObjectPrediction.t) : ObjectPrediction.t :=
  {| ObjectPrediction.score :=
       PredictionScore.mk
         (PyFloat (float_of (PredictionScore.score (ObjectPrediction.score r))));
     ObjectPrediction.base :=
       {| ObjectAnnotation.bbox := BoundingBox.get_shifted_box (ObjectPrediction.bbox r);
          ObjectAnnotation.mask := Mask.get_shifted_mask <$> ObjectPrediction.mask r;
          ObjectAnnotation.category := ObjectPrediction.category r;
          ObjectAnnotation.shift_amount := [0; 0];
          ObjectAnnotation.full_image_size :=
            ObjectPrediction.mask r
            ≫= (λ m, Mask.get_full_image_size (Mask.get_shifted_mask m)) |} |}.

(** ** Sample data *)

(** Two 1 x 2 x 3 tiles; the largest scalar of the first is 100, of the
    second 50. *)
Definition tile_a : array3 :=
  [[[100%float; 50%float; 25%float]; [0%float; 10%float; 20%float]]].
Definition tile_b : array3 :=
  [[[50%float; 5%float; 0%float]; [25%float; 10%float; 1%float]]].
Definition three_tiles : list array3 := [tile_a; tile_b; tile_a].
Definition two_offsets : list (list Z) := [[0; 0]; [100; 0]].
Definition three_offsets : list (list Z) := [[0; 0]; [100; 0]; [0; 100]].

(** A detection on a tile at offset [5, 5] of a 100 x 200 image, as
    [ObjectPrediction([10, 10, 20, 20], np.float64(0.875), 3, "car", mask,
    [5, 5], [100, 200])] builds it. *)
Definition tile_record : ObjectPrediction.t :=
  {| ObjectPrediction.score := PredictionScore.mk (PyFloat 0.875%float);
     ObjectPrediction.base :=
       {| ObjectAnnotation.bbox := BoundingBox.mk 10 10 20 20 5 5;
          ObjectAnnotation.mask :=
            Some (Mask.mk [[true; false]; [true; true]] 5 5 (Some [100; 200]));
          ObjectAnnotation.category := Category.mk 3 (Some "car");
          ObjectAnnotation.shift_amount := [5; 5];
          ObjectAnnotation.full_image_size := Some [100; 200] |} |}.

(** The heap holding [tile_record] at reference 1, with its score, box,
    category and mask objects at 2, 3, 4 and 5. *)
Definition tile_heap : heap :=
  {[ 1%positive := attrs_of (prediction_fields 2%positive 3%positive
                     (VRef 5%positive) 4%positive [5; 5] (Some [100; 200]));
     2%positive := attrs_of (score_fields (ObjectPrediction.score tile_record));
     3%positive := attrs_of (box_fields (ObjectPrediction.bbox tile_record));
     4%positive := attrs_of (category_fields (ObjectPrediction.category tile_record));
     5%positive := attrs_of (mask_fields
                     (Mask.mk [[true; false]; [true; true]] 5 5 (Some [100; 200]))) ]}.

(** ** Further notions used by the properties *)

(** Comparison of exact values; NaN is not comparable. *)
Definition xcompare (a b : xval) : option comparison :=
  match a, b with
  | XNaN, _ | _, XNaN => None
  | XInf s1, XInf s2 =>
      Some (match s1, s2 with
            | true, false => Lt
            | false, true => Gt
            | _, _ => Eq
            end)
  | XInf s, XFin _ => Some (if s then Lt else Gt)
  | XFin _, XInf s => Some (if s then Gt else Lt)
  | XFin x, XFin y => Some (x ?= y)
  end.

(** The order of the extended reals; NaN is unordered. *)
Definition xle (a b : xval) : Prop := xlt a b ∨ (a = b ∧ a ≠ XNaN).

(** A nested list that is a proper array: [h] rows of [w] pixels of [c]
    scalars.  Every numpy array is one. *)
Definition rectangular (a : array3) : Prop :=
  ∃ h w c : nat, shape a = replicate h (replicate w c).

(** Entry [t[c][h][w]] of a tensor. *)
Definition entry (t : array3) (c h w : nat) : option float :=
  plane ← t !! c; line ← plane !! h; line !! w.

(** More sample tiles of shape 1 x 2 x 3: one holding a NaN, one all zero;
    and an array without scalars. *)
Definition tile_nan : array3 :=
  [[[PrimFloat.nan; 1%float; 2%float]; [3%float; 4%float; 5%float]]].
Definition tile_zero : array3 :=
  [[[0%float; 0%float; 0%float]; [0%float; 0%float; 0%float]]].
Definition zero_size : array3 := [[[]]].

(** * Properties *)

(** ** The error monad *)

Lemma bind_Ok {A B} (m : result A) (f : A → result B) (b : B) :
  m ≫= f = Ok b ↔ ∃ a, m = Ok a ∧ f a = Ok b.
Proof.
  destruct m as [a | e]; cbn.
  - split; [eauto | intros (a' & [= <-] & H); exact H].
  - split; [discriminate | intros (a' & [=] & _)].
Qed.

Ltac inv_bind H :=
  repeat match type of H with
  | _ ≫= _ = Ok _ =>
      let a := fresh "a" in
      let Ha := fresh "Ha" in
      apply bind_Ok in H as (a & Ha & H)
  end.

(** ** Comparison of binary64 numbers against their exact values *)

Lemma digits2_pos_bounds (m : positive) :
  2 ^ (Z.pos (digits2_pos m) - 1) <= Z.pos m < 2 ^ Z.pos (digits2_pos m).
Proof.
  induction m as [p IH | p IH |]; cbn [digits2_pos].
  - rewrite Pos2Z.inj_succ.
    replace (Z.succ (Z.pos (digits2_pos p)) - 1)
      with (Z.succ (Z.pos (digits2_pos p) - 1)) by lia.
    rewrite !Z.pow_succ_r by lia. lia.
  - rewrite Pos2Z.inj_succ.
    replace (Z.succ (Z.pos (digits2_pos p)) - 1)
      with (Z.succ (Z.pos (digits2_pos p) - 1)) by lia.
    rewrite !Z.pow_succ_r by lia. lia.
  - cbn. lia.
Qed.

(** A valid finite binary64 number has exponent at least -1074 and a
    mantissa below [2^53]; above the least exponent the mantissa is normal. *)
Lemma bounded_inv (m : positive) (e : Z) :
  bounded prec emax m e = true →
  -1074 <= e ∧ Z.pos m < 2 ^ 53 ∧ (-1074 < e → 2 ^ 52 <= Z.pos m).
Proof.
  unfold bounded, canonical_mantissa, fexp, SpecFloat.emin, prec, emax.
  intros H. apply andb_prop in H as [H _]. apply Z.eqb_eq in H.
  pose proof (digits2_pos_bounds m) as [Hlo Hhi].
  set (d := Z.pos (digits2_pos m)) in *.
  assert (Hd : d <= 53) by lia.
  split; [lia|]. split.
  - eapply Z.lt_le_trans; [exact Hhi|]. apply Z.pow_le_mono_r; lia.
  - intros He. assert (d = 53) by lia. subst d.
    replace 52 with (Z.pos (digits2_pos m) - 1) by lia. exact Hlo.
Qed.

Lemma scaled_pos (m : positive) (e : Z) :
  bounded prec emax m e = true → 0 < Z.pos m * 2 ^ (e + 1074).
Proof.
  intros H. apply bounded_inv in H as (Hmin & _ & _).
  apply Z.mul_pos_pos; [lia | apply Z.pow_pos_nonneg; lia].
Qed.

Lemma scaled_lt (m1 : positive) (e1 : Z) (m2 : positive) (e2 : Z) :
  bounded prec emax m1 e1 = true → bounded prec emax m2 e2 = true →
  e1 < e2 →
  Z.pos m1 * 2 ^ (e1 + 1074) < Z.pos m2 * 2 ^ (e2 + 1074).
Proof.
  intros H1 H2 Hlt.
  apply bounded_inv in H1 as (Hmin1 & Hhi1 & _).
  apply bounded_inv in H2 as (_ & _ & Hlo2).
  assert (Hgt : -1074 < e2) by lia. apply Hlo2 in Hgt.
  replace (e2 + 1074) with ((e1 + 1074) + 1 + (e2 - e1 - 1)) by lia.
  rewrite (Z.pow_add_r 2 (e1 + 1074 + 1) (e2 - e1 - 1)),
    (Z.pow_add_r 2 (e1 + 1074) 1) by lia.
  assert (0 < 2 ^ (e1 + 1074)) by (apply Z.pow_pos_nonneg; lia).
  assert (1 <= 2 ^ (e2 - e1 - 1))
    by (apply Z.pow_le_mono_r with (b := 0) (a := 2); lia).
  change (2 ^ 53) with 9007199254740992 in Hhi1.
  change (2 ^ 52) with 4503599627370496 in Hgt.
  change (2 ^ 1) with 2.
  set (P := 2 ^ (e1 + 1074)) in *. set (Q := 2 ^ (e2 - e1 - 1)) in *.
  apply Z.lt_le_trans with (9007199254740992 * P).
  - apply Z.mul_lt_mono_pos_r; lia.
  - apply Z.le_trans with (Z.pos m2 * (P * 2) * 1).
    { replace (9007199254740992 * P) with (4503599627370496 * (P * 2) * 1) by lia.
      apply Z.mul_le_mono_nonneg_r; [lia|].
      apply Z.mul_le_mono_nonneg_r; lia. }
    rewrite (Z.mul_assoc (Z.pos m2) (P * 2) Q).
    apply Z.mul_le_mono_nonneg_l; lia.
Qed.

(** Comparing exponents first and mantissas second compares the values. *)
Lemma scaled_compare (m1 : positive) (e1 : Z) (m2 : positive) (e2 : Z) :
  bounded prec emax m1 e1 = true → bounded prec emax m2 e2 = true →
  match e1 ?= e2 with
  | Lt => Lt
  | Gt => Gt
  | Eq => Pos.compare_cont Eq m1 m2
  end = (Z.pos m1 * 2 ^ (e1 + 1074) ?= Z.pos m2 * 2 ^ (e2 + 1074)).
Proof.
  intros H1 H2. symmetry. destruct (Z.compare_spec e1 e2) as [-> | Hlt | Hgt].
  - assert (0 < 2 ^ (e2 + 1074)).
    { apply Z.pow_pos_nonneg; [lia | apply bounded_inv in H2; lia]. }
    rewrite <- Zmult_compare_compat_r by lia. reflexivity.
  - apply Z.compare_lt_iff. now apply scaled_lt.
  - apply Z.compare_gt_iff. now apply scaled_lt.
Qed.

Lemma SFltb_value (f1 f2 : spec_float) :
  valid_binary f1 = true → valid_binary f2 = true →
  SFltb f1 f2 = true ↔ xlt (SFvalue f1) (SFvalue f2).
Proof.
  intros V1 V2. unfold SFltb.
  destruct f1 as [s1 | s1 | | s1 m1 e1], f2 as [s2 | s2 | | s2 m2 e2];
    cbn [SFcompare SFvalue xlt valid_binary] in *.
  16: {
    pose proof (scaled_pos _ _ V1). pose proof (scaled_pos _ _ V2).
    pose proof (Z.compare_spec (Z.pos m1 * 2 ^ (e1 + 1074))
                  (Z.pos m2 * 2 ^ (e2 + 1074))) as Hs.
    rewrite <- (scaled_compare _ _ _ _ V1 V2) in Hs.
    destruct s1, s2;
      [ | split; [intros _; lia | reflexivity] | split; [discriminate | lia] | ];
      (destruct (e1 ?= e2); [destruct (Pos.compare_cont Eq m1 m2) | | ]);
      inversion Hs; cbn [CompOpp]; split; (discriminate || lia || reflexivity). }
  all: try (pose proof (scaled_pos _ _ V1)); try (pose proof (scaled_pos _ _ V2)).
  all: try destruct s1; try destruct s2; split;
    first [discriminate | contradiction | reflexivity
          | (intros; lia) | (intros; exact I) | idtac].
Qed.

Lemma ltb_value (x y : float) :
  PrimFloat.ltb x y = true ↔ xlt (value x) (value y).
Proof. rewrite ltb_spec. apply SFltb_value; apply Prim2SF_valid. Qed.

Lemma xlt_irrefl (v : xval) : ¬ xlt v v.
Proof. destruct v as [| [] | z]; cbn; (tauto || discriminate || lia). Qed.

(** ** PredictionScore *)

(** C5: for every stored score and every threshold,
    [is_greater_than_threshold] returns true if and only if the exact value
    of the score is strictly greater than the exact value of the threshold;
    in particular a score compared with itself as threshold yields false. *)
Theorem is_greater_than_threshold_strict
    (self : PredictionScore.t) (threshold : pynum) :
  (PredictionScore.is_greater_than_threshold self threshold = true
   ↔ xlt (value (float_of threshold))
         (value (float_of (PredictionScore.score self))))
  ∧ PredictionScore.is_greater_than_threshold self (PredictionScore.score self)
    = false.
Proof.
  unfold PredictionScore.is_greater_than_threshold, py_gt. split.
  - apply ltb_value.
  - apply not_true_is_false. intros H%ltb_value. exact (xlt_irrefl _ H).
Qed.

Example threshold_equal :
  PredictionScore.is_greater_than_threshold
    (PredictionScore.mk (PyFloat 0.5%float)) (PyFloat 0.5%float) = false.
Proof. reflexivity. Qed.

(** [0.50001] denotes the nearest binary64 number, as it does in Python. *)
#[warnings="-inexact-float"] Example threshold_just_above :
  PredictionScore.is_greater_than_threshold
    (PredictionScore.mk (PyFloat 0.50001%float)) (PyFloat 0.5%float) = true.
Proof. reflexivity. Qed.

Example threshold_nan :
  PredictionScore.is_greater_than_threshold
    (PredictionScore.mk (PyFloat PrimFloat.nan)) (PyFloat 0.5%float) = false.
Proof. reflexivity. Qed.

(** C9: construction succeeds on every number, whatever its range; the
    stored score is a plain Python float of the same value as the input; a
    numpy scalar is unwrapped, and anything else is stored as it is. *)
Theorem score_construction_unwraps (score : pynum) :
  ∃ self, PredictionScore.init score = Ok self
    ∧ is_plain (PredictionScore.score self)
    ∧ float_of (PredictionScore.score self) = float_of score
    ∧ (type_module score = "numpy"
       → PredictionScore.score self = tolist (deepcopy score))
    ∧ (type_module score ≠ "numpy" → PredictionScore.score self = score).
Proof.
  destruct score as [x | x]; eexists; (split; [reflexivity|]); cbn;
    (split; [now exists x|]); repeat split; (reflexivity || done).
Qed.

Example score_out_of_range :
  PredictionScore.init (NpFloat (-3.5)%float)
  = Ok (PredictionScore.mk (PyFloat (-3.5)%float)).
Proof. reflexivity. Qed.

Lemma PredictionScore_init_plain (v : pynum) :
  PredictionScore.init v = Ok (PredictionScore.mk (PyFloat (float_of v))).
Proof. destruct v; reflexivity. Qed.

(** ** ObjectPrediction *)

(** The shift never fails, and returns [shifted_record]. *)
Lemma get_shifted_object_prediction_eq (r : ObjectPrediction.t) :
  ObjectPrediction.get_shifted_object_prediction r = Ok (shifted_record r).
Proof.
  destruct r as [[[x | x]] [b [m |] [cid cname] sa fis]]; reflexivity.
Qed.

Lemma tile_record_constructed : constructed tile_record.
Proof.
  exists [10; 10; 20; 20], (NpFloat 0.875%float), 3, (Some "car"),
    (Some [[true; false]; [true; true]]), [5; 5], (Some [100; 200]).
  reflexivity.
Defined.

(** C1: for a record built from box [minx, miny, maxx, maxy] and shift
    [dx, dy], the shift returns a record whose box, in min/max form, is
    [minx+dx, miny+dy, maxx+dx, maxy+dy]. *)
Theorem shifted_box_is_translated
    (minx miny maxx maxy dx dy : Z) (score : pynum) (category_id : Z)
    (category_name : option string) (bool_mask : option (list (list bool)))
    (full_image_size : option (list Z)) (r : ObjectPrediction.t) :
  ObjectPrediction.init [minx; miny; maxx; maxy] score category_id category_name
    bool_mask [dx; dy] full_image_size = Ok r →
  ∃ r', ObjectPrediction.get_shifted_object_prediction r = Ok r'
    ∧ BoundingBox.to_voc_bbox (ObjectPrediction.bbox r')
      = [minx + dx; miny + dy; maxx + dx; maxy + dy].
Proof.
  intros Hinit. exists (shifted_record r).
  split; [apply get_shifted_object_prediction_eq|].
  unfold ObjectPrediction.init in Hinit. inv_bind Hinit. injection Hinit as <-.
  unfold ObjectAnnotation.init in Ha0. inv_bind Ha0. injection Ha0 as <-.
  cbn in Ha1. injection Ha1 as <-. reflexivity.
Qed.

Lemma shifted_box_is_translated_witness :
  ObjectPrediction.init [10; 10; 20; 20] (NpFloat 0.875%float) 3 (Some "car")
    (Some [[true; false]; [true; true]]) [5; 5] (Some [100; 200]) = Ok tile_record
  ∧ ∃ r', ObjectPrediction.get_shifted_object_prediction tile_record = Ok r'
      ∧ BoundingBox.to_voc_bbox (ObjectPrediction.bbox r') = [15; 15; 25; 25].
Proof.
  split; [reflexivity|].
  apply (shifted_box_is_translated 10 10 20 20 5 5 (NpFloat 0.875%float) 3
           (Some "car") (Some [[true; false]; [true; true]]) (Some [100; 200])).
  reflexivity.
Defined.

(** The end-to-end scenario: box [0, 0, 50, 50] on a tile at [200, 300] of a
    1000 x 1200 image. *)
Example shift_end_to_end :
  (r ← ObjectPrediction.init [0; 0; 50; 50] (PyFloat 0.5%float) 1 None None
         [200; 300] (Some [1000; 1200]);
   r' ← ObjectPrediction.get_shifted_object_prediction r;
   Ok (BoundingBox.to_voc_bbox (ObjectPrediction.bbox r'),
       ObjectPrediction.shift_amount r'))
  = Ok ([200; 300; 250; 350], [0; 0]).
Proof. reflexivity. Qed.

(** C3: the record returned by the shift has [shift_amount] [0, 0], whatever
    the original offset; its [full_image_size] is the full-image size
    recorded by the shifted mask when the original has a mask, and unset
    when it has none. *)
Theorem shift_resets_offset (r : ObjectPrediction.t) :
  ∃ r', ObjectPrediction.get_shifted_object_prediction r = Ok r'
    ∧ ObjectPrediction.shift_amount r' = [0; 0]
    ∧ ObjectPrediction.full_image_size r'
      = match ObjectPrediction.mask r with
        | Some m => Mask.get_full_image_size (Mask.get_shifted_mask m)
        | None => None
        end.
Proof.
  exists (shifted_record r). split; [apply get_shifted_object_prediction_eq|].
  split; [reflexivity|]. cbn. unfold ObjectPrediction.mask.
  now destruct (ObjectAnnotation.mask (ObjectPrediction.base r)).
Qed.

(** The box and the mask of the returned record carry no pending shift
    either. *)
Lemma shift_resets_region_offsets (r : ObjectPrediction.t) :
  let r' := shifted_record r in
  BoundingBox.shift_x (ObjectPrediction.bbox r') = 0
  ∧ BoundingBox.shift_y (ObjectPrediction.bbox r') = 0
  ∧ ∀ m', ObjectPrediction.mask r' = Some m'
      → Mask.shift_x m' = 0 ∧ Mask.shift_y m' = 0.
Proof.
  cbn. split; [reflexivity|]. split; [reflexivity|].
  unfold ObjectPrediction.mask. cbn.
  destruct (ObjectAnnotation.mask (ObjectPrediction.base r)); cbn;
    [intros m' [= <-]; split; reflexivity | discriminate].
Qed.

(** C6: on a record built by the constructor, the shift carries score,
    category id and category name over unchanged, and the new record has a
    mask if and only if the original has one. *)
Theorem shift_carries_score_and_category (r : ObjectPrediction.t) :
  constructed r →
  ∃ r', ObjectPrediction.get_shifted_object_prediction r = Ok r'
    ∧ ObjectPrediction.score r' = ObjectPrediction.score r
    ∧ Category.id (ObjectPrediction.category r')
      = Category.id (ObjectPrediction.category r)
    ∧ Category.name (ObjectPrediction.category r')
      = Category.name (ObjectPrediction.category r)
    ∧ (is_Some (ObjectPrediction.mask r') ↔ is_Some (ObjectPrediction.mask r)).
Proof.
  intros (bbox & score & cid & cname & bm & sa & fis & Hinit).
  exists (shifted_record r). split; [apply get_shifted_object_prediction_eq|].
  unfold ObjectPrediction.init in Hinit. inv_bind Hinit. injection Hinit as <-.
  rewrite PredictionScore_init_plain in Ha. injection Ha as <-.
  split; [reflexivity|]. split; [reflexivity|]. split; [reflexivity|].
  cbn. unfold ObjectPrediction.mask. cbn. apply fmap_is_Some.
Qed.

Lemma shift_carries_score_and_category_witness :
  constructed tile_record ∧
  ∃ r', ObjectPrediction.get_shifted_object_prediction tile_record = Ok r'
    ∧ ObjectPrediction.score r' = ObjectPrediction.score tile_record
    ∧ Category.id (ObjectPrediction.category r') = 3
    ∧ Category.name (ObjectPrediction.category r') = Some "car"
    ∧ (is_Some (ObjectPrediction.mask r')
       ↔ is_Some (ObjectPrediction.mask tile_record)).
Proof.
  split; [exact tile_record_constructed|].
  exact (shift_carries_score_and_category tile_record tile_record_constructed).
Defined.

(** Translating a mask keeps its number of set pixels. *)
Lemma filter_replicate_false (n : nat) :
  filter (λ b : bool, b = true) (replicate n false) = [].
Proof.
  induction n as [| n IH]; [reflexivity|]. cbn [replicate].
  rewrite filter_cons_False by discriminate. exact IH.
Qed.

Lemma translate_pixel_count (dx dy : Z) (rows : list (list bool)) :
  Mask.pixel_count (Mask.translate dx dy rows) = Mask.pixel_count rows.
Proof.
  unfold Mask.pixel_count, Mask.translate.
  rewrite concat_app, filter_app, length_app.
  assert (Hblank : ∀ n k, filter (λ b : bool, b = true)
                     (concat (replicate n (replicate k false))) = []).
  { intros n k. induction n as [| n IH]; [reflexivity|].
    cbn [replicate concat]. now rewrite filter_app, filter_replicate_false, IH. }
  rewrite Hblank. cbn [length Nat.add]. f_equal.
  induction rows as [| row rows IH]; [reflexivity|].
  cbn [map concat]. rewrite !filter_app, filter_replicate_false, IH. reflexivity.
Qed.

(** *** The shift on the heap *)

Lemma bind_Ok_M {A B} (m : M A) (f : A → M B) (h h' : heap) (a : A) :
  m h = Ok (a, h') → (m ≫= f) h = f a h'.
Proof. intros H. unfold mbind, M_bind. now rewrite H. Qed.

Ltac step tac := erewrite bind_Ok_M by tac.

Lemma getattr_eq (h : heap) (l : loc) (o : gmap string val) (k : string) (v : val) :
  h !! l = Some o → o !! k = Some v → getattr l k h = Ok (v, h).
Proof. intros H1 H2. unfold getattr. now rewrite H1, H2. Qed.

Lemma get_ref_eq (h : heap) (l : loc) (o : gmap string val) (k : string) (r : loc) :
  h !! l = Some o → o !! k = Some (VRef r) → get_ref l k h = Ok (r, h).
Proof.
  intros H1 H2. unfold get_ref.
  now rewrite (bind_Ok_M _ _ _ _ _ (getattr_eq _ _ _ _ _ H1 H2)).
Qed.

Lemma get_int_eq (h : heap) (l : loc) (o : gmap string val) (k : string) (z : Z) :
  h !! l = Some o → o !! k = Some (VInt z) → get_int l k h = Ok (z, h).
Proof.
  intros H1 H2. unfold get_int.
  now rewrite (bind_Ok_M _ _ _ _ _ (getattr_eq _ _ _ _ _ H1 H2)).
Qed.

Lemma get_num_eq (h : heap) (l : loc) (o : gmap string val) (k : string) (x : pynum) :
  h !! l = Some o → o !! k = Some (VNum x) → get_num l k h = Ok (x, h).
Proof.
  intros H1 H2. unfold get_num.
  now rewrite (bind_Ok_M _ _ _ _ _ (getattr_eq _ _ _ _ _ H1 H2)).
Qed.

Lemma get_array_eq (h : heap) (l : loc) (o : gmap string val) (k : string) a :
  h !! l = Some o → o !! k = Some (VArray a) → get_array l k h = Ok (a, h).
Proof.
  intros H1 H2. unfold get_array.
  now rewrite (bind_Ok_M _ _ _ _ _ (getattr_eq _ _ _ _ _ H1 H2)).
Qed.

Lemma get_opt_list_eq (h : heap) (l : loc) (o : gmap string val) (k : string) x :
  h !! l = Some o → o !! k = Some (of_opt_list x) → get_opt_list l k h = Ok (x, h).
Proof.
  intros H1 H2. unfold get_opt_list.
  rewrite (bind_Ok_M _ _ _ _ _ (getattr_eq _ _ _ _ _ H1 H2)). now destruct x.
Qed.

Lemma get_opt_str_eq (h : heap) (l : loc) (o : gmap string val) (k : string) x :
  h !! l = Some o → o !! k = Some (of_opt_str x) → get_opt_str l k h = Ok (x, h).
Proof.
  intros H1 H2. unfold get_opt_str.
  rewrite (bind_Ok_M _ _ _ _ _ (getattr_eq _ _ _ _ _ H1 H2)). now destruct x.
Qed.

Lemma fresh_None (h : heap) : h !! fresh (dom h) = None.
Proof. apply not_elem_of_dom, is_fresh. Qed.

Lemma setattr_eq (h : heap) (l : loc) (o : gmap string val) (k : string) (v : val) :
  h !! l = Some o → setattr l k v h = Ok (tt, <[l := <[k := v]> o]> h).
Proof. intros H. unfold setattr. now rewrite H. Qed.

Lemma init_attrs_eq (l : loc) (fields : list (string * val)) :
  ∀ (h : heap) (o : gmap string val), h !! l = Some o →
  init_attrs l fields h
  = Ok (tt, <[l := fold_left (λ o kv, <[kv.1 := kv.2]> o) fields o]> h).
Proof.
  induction fields as [| [k v] fields IH]; intros h o Hl; cbn [init_attrs fold_left].
  - unfold mret, M_ret. now rewrite insert_id.
  - rewrite (bind_Ok_M _ _ _ _ _ (setattr_eq _ _ _ k v Hl)).
    rewrite (IH _ (<[k := v]> o)) by apply lookup_insert_eq.
    now rewrite insert_insert_eq.
Qed.

Lemma construct_eq (fields : list (string * val)) (h : heap) :
  construct fields h
  = Ok (fresh (dom h), <[fresh (dom h) := attrs_of fields]> h).
Proof.
  unfold construct.
  rewrite (bind_Ok_M new_object _ h (<[fresh (dom h) := ∅]> h) (fresh (dom h)) eq_refl).
  rewrite (bind_Ok_M _ _ _ _ _ (init_attrs_eq _ fields _ ∅ (lookup_insert_eq _ _ _))).
  unfold mret, M_ret, attrs_of. now rewrite insert_insert_eq.
Qed.

Lemma construct_allocates (fields : list (string * val)) :
  allocates (construct fields) (attrs_of fields).
Proof.
  intros h. exists (fresh (dom h)), (<[fresh (dom h) := attrs_of fields]> h).
  split; [apply construct_eq|]. split; [|split].
  - apply insert_subseteq, fresh_None.
  - apply fresh_None.
  - apply lookup_insert_eq.
Qed.

Lemma new_PredictionScore_allocates (score : pynum) :
  allocates (Store.new_PredictionScore score)
    (attrs_of (score_fields (PredictionScore.mk (PyFloat (float_of score))))).
Proof.
  intros h. exists (fresh (dom h)).
  eexists. split; [|split; [|split]].
  - unfold Store.new_PredictionScore.
    rewrite (bind_Ok_M new_object _ h (<[fresh (dom h) := ∅]> h) (fresh (dom h)) eq_refl).
    unfold Store.PredictionScore_init.
    rewrite (bind_Ok_M _ _ _ _ _ (setattr_eq _ _ _ _ _ (lookup_insert_eq _ _ _))).
    unfold mret, M_ret. rewrite insert_insert_eq. reflexivity.
  - apply insert_subseteq, fresh_None.
  - apply fresh_None.
  - rewrite lookup_insert_eq. now destruct score.
Qed.

Lemma read_box_eq (h : heap) (l : loc) (b : BoundingBox.t) :
  h !! l = Some (attrs_of (box_fields b)) → Store.read_box l h = Ok (b, h).
Proof.
  intros H. unfold Store.read_box.
  do 6 (step ltac:(eapply get_int_eq; [exact H | reflexivity])).
  now destruct b.
Qed.

Lemma read_mask_eq (h : heap) (l : loc) (m : Mask.t) :
  h !! l = Some (attrs_of (mask_fields m)) → Store.read_mask l h = Ok (m, h).
Proof.
  intros H. unfold Store.read_mask.
  step ltac:(eapply get_array_eq; [exact H | reflexivity]).
  do 2 (step ltac:(eapply get_int_eq; [exact H | reflexivity])).
  step ltac:(eapply get_opt_list_eq; [exact H | reflexivity]).
  now destruct m.
Qed.

Lemma to_voc_bbox_eq (h : heap) (l : loc) (b : BoundingBox.t) :
  h !! l = Some (attrs_of (box_fields b)) →
  Store.to_voc_bbox l h = Ok (BoundingBox.to_voc_bbox b, h).
Proof.
  intros H. unfold Store.to_voc_bbox.
  now rewrite (bind_Ok_M _ _ _ _ _ (read_box_eq _ _ _ H)).
Qed.

Lemma get_shifted_box_allocates (h : heap) (l : loc) (b : BoundingBox.t) :
  h !! l = Some (attrs_of (box_fields b)) →
  allocates_at h (Store.get_shifted_box l)
    (attrs_of (box_fields (BoundingBox.get_shifted_box b))).
Proof.
  intros H. unfold allocates_at, Store.get_shifted_box.
  rewrite (bind_Ok_M _ _ _ _ _ (read_box_eq _ _ _ H)).
  apply construct_allocates.
Qed.

Lemma get_shifted_mask_allocates (h : heap) (l : loc) (m : Mask.t) :
  h !! l = Some (attrs_of (mask_fields m)) →
  allocates_at h (Store.get_shifted_mask l)
    (attrs_of (mask_fields (Mask.get_shifted_mask m))).
Proof.
  intros H. unfold allocates_at, Store.get_shifted_mask.
  rewrite (bind_Ok_M _ _ _ _ _ (read_mask_eq _ _ _ H)).
  apply construct_allocates.
Qed.

Lemma new_BoundingBox_allocates (box sa : list Z) (b : BoundingBox.t) :
  BoundingBox.init box sa = Ok b →
  allocates (Store.new_BoundingBox box sa) (attrs_of (box_fields b)).
Proof.
  intros H h. unfold allocates_at, Store.new_BoundingBox.
  rewrite (bind_Ok_M (lift _) _ h h b) by (unfold lift; now rewrite H).
  apply construct_allocates.
Qed.

Lemma new_Mask_allocates bm (sa : list Z) fis (m : Mask.t) :
  Mask.init bm sa fis = Ok m →
  allocates (Store.new_Mask bm sa fis) (attrs_of (mask_fields m)).
Proof.
  intros H h. unfold allocates_at, Store.new_Mask.
  rewrite (bind_Ok_M (lift _) _ h h m) by (unfold lift; now rewrite H).
  apply construct_allocates.
Qed.

(** The constructor call allocates the record and its score, box, category
    and mask objects, all at references not in use before, and keeps every
    object of the heap as it is. *)
Lemma new_ObjectPrediction_spec (g : heap) bbox score cid cname bm sa fis
    (r : ObjectPrediction.t) :
  ObjectPrediction.init bbox score cid cname bm sa fis = Ok r →
  ∃ new g' ls lb lc vm,
    Store.new_ObjectPrediction bbox score cid cname bm sa fis g = Ok (new, g')
    ∧ g ⊆ g'
    ∧ g !! new = None ∧ g !! ls = None ∧ g !! lb = None ∧ g !! lc = None
    ∧ (∀ lm, vm = VRef lm → g !! lm = None)
    ∧ object_graph g' new ls lb lc vm r.
Proof.
  intros Hinit. unfold ObjectPrediction.init in Hinit. inv_bind Hinit.
  injection Hinit as <-. rewrite PredictionScore_init_plain in Ha. injection Ha as <-.
  unfold ObjectAnnotation.init in Ha0. inv_bind Ha0. injection Ha0 as <-.
  rename a into box, a1 into mask, Ha into Hbox, Ha1 into Hmask.
  (* the instance *)
  set (new := fresh (dom g)). set (g0 := <[new := ∅]> g).
  assert (Hnew : g !! new = None) by apply fresh_None.
  assert (Hsub0 : g ⊆ g0) by (apply insert_subseteq, Hnew).
  (* self.score = PredictionScore(score) *)
  destruct (new_PredictionScore_allocates score g0) as (ls & g1 & Hrun1 & Hsub1 & Hls0 & Hls1).
  assert (Hnew1 : g1 !! new = Some ∅)
    by (eapply lookup_weaken; [apply lookup_insert_eq | exact Hsub1]).
  assert (Hne_ls : ls ≠ new)
    by (intros ->; unfold g0 in Hls0; rewrite lookup_insert_eq in Hls0; discriminate).
  set (g2 := <[new := <["score" := VRef ls]> ∅]> g1).
  assert (Hls2 : g2 !! ls = Some (attrs_of (score_fields
                   (PredictionScore.mk (PyFloat (float_of score))))))
    by (unfold g2; rewrite lookup_insert_ne by congruence; exact Hls1).
  assert (Hg_ls : g !! ls = None) by (eapply lookup_weaken_None; eauto).
  assert (Hsub2 : g ⊆ g2).
  { unfold g2. apply insert_subseteq_r; [exact Hnew|]. now transitivity g0. }
  assert (Hnew2 : g2 !! new = Some (<["score" := VRef ls]> ∅))
    by (unfold g2; apply lookup_insert_eq).
  (* the box *)
  destruct (new_BoundingBox_allocates _ _ _ Hbox g2) as (lb & g3 & Hrun3 & Hsub3 & Hlb2 & Hlb3).
  assert (Hne_lb : lb ≠ new) by congruence.
  (* the mask *)
  assert (Hm : ∃ vm g4,
    (match bm with
     | Some bm' => m ← Store.new_Mask bm' sa fis; mret (VRef m)
     | None => mret VNone
     end) g3 = Ok (vm, g4)
    ∧ g3 ⊆ g4
    ∧ (∀ lm, vm = VRef lm → g3 !! lm = None)
    ∧ match mask with
      | Some m => ∃ lm, vm = VRef lm ∧ g4 !! lm = Some (attrs_of (mask_fields m))
      | None => vm = VNone
      end).
  { destruct bm as [bm' |].
    - inv_bind Hmask. injection Hmask as <-.
      destruct (new_Mask_allocates _ _ _ _ Ha g3) as (lm & g4 & Hrun4 & Hsub4 & Hlm3 & Hlm4).
      exists (VRef lm), g4. rewrite (bind_Ok_M _ _ _ _ _ Hrun4).
      split; [reflexivity|]. split; [exact Hsub4|]. split; [now intros ? [= <-]|].
      exists lm. auto.
    - injection Hmask as <-. exists VNone, g3.
      split; [reflexivity|]. split; [reflexivity|]. split; [intros ? [=] | reflexivity]. }
  destruct Hm as (vm & g4 & Hrun4 & Hsub4 & Hvm3 & Hmask4).
  (* the category *)
  destruct (construct_allocates (category_fields (Category.mk cid cname)) g4)
    as (lc & g5 & Hrun5 & Hsub5 & Hlc4 & Hlc5).
  assert (Hsub25 : g2 ⊆ g5) by (transitivity g3; [|transitivity g4]; assumption).
  assert (Hnew5 : g5 !! new = Some (<["score" := VRef ls]> ∅))
    by (eapply lookup_weaken; eauto).
  assert (Hne_lc : lc ≠ new).
  { intros ->. assert (g4 !! new = Some (<["score" := VRef ls]> ∅)).
    { eapply lookup_weaken; [exact Hnew2|]. now transitivity g3. }
    congruence. }
  (* the attributes of the instance *)
  set (fields := [("bbox", VRef lb); ("mask", vm); ("category", VRef lc);
                  ("shift_amount", VList sa); ("full_image_size", of_opt_list fis)]).
  pose proof (init_attrs_eq new fields g5 _ Hnew5) as Hrun6.
  set (g6 := <[new := fold_left (λ o kv, <[kv.1 := kv.2]> o) fields
                        (<["score" := VRef ls]> ∅)]> g5) in Hrun6.
  exists new, g6, ls, lb, lc, vm.
  split.
  { unfold Store.new_ObjectPrediction.
    rewrite (bind_Ok_M new_object _ g g0 new eq_refl).
    unfold Store.ObjectPrediction_init.
    erewrite (bind_Ok_M (_ ≫= _) _ g0 g6 tt); [reflexivity|].
    rewrite (bind_Ok_M _ _ _ _ _ Hrun1).
    rewrite (bind_Ok_M _ _ _ _ _ (setattr_eq _ _ _ "score" (VRef ls) Hnew1)).
    fold g2. unfold Store.ObjectAnnotation_init.
    rewrite (bind_Ok_M _ _ _ _ _ Hrun3).
    rewrite (bind_Ok_M _ _ _ _ _ Hrun4).
    rewrite (bind_Ok_M _ _ _ _ _ Hrun5).
    exact Hrun6. }
  assert (Hg_lb : g !! lb = None) by (eapply lookup_weaken_None; eauto).
  assert (Hg_lc : g !! lc = None).
  { eapply lookup_weaken_None; [exact Hlc4|].
    transitivity g2; [exact Hsub2|]. now transitivity g3. }
  split.
  { unfold g6. apply insert_subseteq_r; [exact Hnew|]. now transitivity g2. }
  split; [exact Hnew|]. split; [exact Hg_ls|]. split; [exact Hg_lb|].
  split; [exact Hg_lc|]. split.
  { intros lm Hlm. eapply lookup_weaken_None; [exact (Hvm3 lm Hlm)|].
    now transitivity g2. }
  unfold object_graph. cbn [ObjectPrediction.shift_amount ObjectPrediction.full_image_size
    ObjectPrediction.score ObjectPrediction.bbox ObjectPrediction.category
    ObjectPrediction.mask ObjectPrediction.base ObjectAnnotation.shift_amount
    ObjectAnnotation.full_image_size ObjectAnnotation.bbox ObjectAnnotation.category
    ObjectAnnotation.mask].
  split; [unfold g6; rewrite lookup_insert_eq; reflexivity|].
  split.
  { unfold g6. rewrite lookup_insert_ne by congruence.
    eapply lookup_weaken; [exact Hls2 | exact Hsub25]. }
  split.
  { unfold g6. rewrite lookup_insert_ne by congruence.
    eapply lookup_weaken; [exact Hlb3|]. now transitivity g4. }
  split.
  { unfold g6. rewrite lookup_insert_ne by congruence. exact Hlc5. }
  destruct mask as [m |]; [|exact Hmask4].
  destruct Hmask4 as (lm & -> & Hlm4). exists lm. split; [reflexivity|].
  unfold g6. rewrite lookup_insert_ne.
  - eapply lookup_weaken; [exact Hlm4 | exact Hsub5].
  - intros <-. specialize (Hvm3 _ eq_refl).
    assert (g3 !! new = Some (<["score" := VRef ls]> ∅))
      by (eapply lookup_weaken; [exact Hnew2 | exact Hsub3]).
    congruence.
Qed.

Lemma object_graph_weaken (h h' : heap) self ls lb lc vm r :
  h ⊆ h' → object_graph h self ls lb lc vm r → object_graph h' self ls lb lc vm r.
Proof.
  intros Hsub (H1 & H2 & H3 & H4 & H5).
  repeat split; try (eapply lookup_weaken; eassumption).
  destruct (ObjectPrediction.mask r); [|exact H5].
  destruct H5 as (lm & -> & Hlm). exists lm. split; [reflexivity|].
  eapply lookup_weaken; eassumption.
Qed.

(** The call on the object at [self]: it returns; every object of the heap
    is kept as it is; the record returned and its score, box, category and
    mask objects are at references that were not in use. *)
Lemma shift_spec (h : heap) (self ls lb lc : loc) (vm : val) (r : ObjectPrediction.t) :
  object_graph h self ls lb lc vm r →
  ∃ new h' ls' lb' lc' vm',
    Store.get_shifted_object_prediction self h = Ok (new, h')
    ∧ h ⊆ h'
    ∧ h !! new = None ∧ h !! ls' = None ∧ h !! lb' = None ∧ h !! lc' = None
    ∧ (∀ lm', vm' = VRef lm' → h !! lm' = None)
    ∧ object_graph h' new ls' lb' lc' vm' (shifted_record r).
Proof.
  intros (Hself & Hs & Hb & Hc & Hm).
  pose proof (get_shifted_object_prediction_eq r) as Hpure.
  unfold ObjectPrediction.get_shifted_object_prediction in Hpure.
  unfold Store.get_shifted_object_prediction.
  step ltac:(eapply getattr_eq; [exact Hself | reflexivity]).
  destruct (ObjectPrediction.mask r) as [m |] eqn:Emask.
  - destruct Hm as (lm & -> & Hm). cbn [truthy_val snd].
    step ltac:(eapply get_ref_eq; [exact Hself | reflexivity]).
    destruct (get_shifted_box_allocates h lb _ Hb) as (l1 & h1 & Hrun1 & Hsub1 & Hl1 & Hl1').
    rewrite (bind_Ok_M _ _ _ _ _ Hrun1).
    rewrite (bind_Ok_M _ _ _ _ _ (to_voc_bbox_eq _ _ _ Hl1')).
    assert (Hself1 := lookup_weaken _ _ _ _ Hself Hsub1).
    assert (Hs1 := lookup_weaken _ _ _ _ Hs Hsub1).
    assert (Hc1 := lookup_weaken _ _ _ _ Hc Hsub1).
    assert (Hm1 := lookup_weaken _ _ _ _ Hm Hsub1).
    step ltac:(eapply get_ref_eq; [exact Hself1 | reflexivity]).
    step ltac:(eapply get_int_eq; [exact Hc1 | reflexivity]).
    step ltac:(eapply get_ref_eq; [exact Hself1 | reflexivity]).
    step ltac:(eapply get_num_eq; [exact Hs1 | reflexivity]).
    step ltac:(eapply get_ref_eq; [exact Hself1 | reflexivity]).
    destruct (get_shifted_mask_allocates h1 lm _ Hm1) as (l2 & h2 & Hrun2 & Hsub2 & Hl2 & Hl2').
    rewrite (bind_Ok_M _ _ _ _ _ Hrun2).
    step ltac:(eapply get_array_eq; [exact Hl2' | reflexivity]).
    assert (Hself2 := lookup_weaken _ _ _ _ Hself1 Hsub2).
    assert (Hc2 := lookup_weaken _ _ _ _ Hc1 Hsub2).
    assert (Hm2 := lookup_weaken _ _ _ _ Hm1 Hsub2).
    step ltac:(eapply get_ref_eq; [exact Hself2 | reflexivity]).
    step ltac:(eapply get_opt_str_eq; [exact Hc2 | reflexivity]).
    step ltac:(eapply get_ref_eq; [exact Hself2 | reflexivity]).
    destruct (get_shifted_mask_allocates h2 lm _ Hm2) as (l3 & h3 & Hrun3 & Hsub3 & Hl3 & Hl3').
    rewrite (bind_Ok_M _ _ _ _ _ Hrun3).
    unfold Store.get_full_image_size.
    step ltac:(eapply get_opt_list_eq; [exact Hl3' | reflexivity]).
    assert (Hsub03 : h ⊆ h3) by (transitivity h1; [|transitivity h2]; assumption).
    destruct (new_ObjectPrediction_spec h3 _ _ _ _ _ _ _ _ Hpure)
      as (new & h' & ls' & lb' & lc' & vm' & Hrun & Hsub & Hn & Hn1 & Hn2 & Hn3 & Hn4 & Hg).
    exists new, h', ls', lb', lc', vm'.
    split; [exact Hrun|]. split; [now transitivity h3|].
    do 4 (split; [eapply lookup_weaken_None; eassumption|]).
    split; [|exact Hg].
    intros lm' Hlm'. eapply lookup_weaken_None; [exact (Hn4 lm' Hlm') | exact Hsub03].
  - subst vm. cbn [truthy_val snd].
    step ltac:(eapply get_ref_eq; [exact Hself | reflexivity]).
    destruct (get_shifted_box_allocates h lb _ Hb) as (l1 & h1 & Hrun1 & Hsub1 & Hl1 & Hl1').
    rewrite (bind_Ok_M _ _ _ _ _ Hrun1).
    rewrite (bind_Ok_M _ _ _ _ _ (to_voc_bbox_eq _ _ _ Hl1')).
    assert (Hself1 := lookup_weaken _ _ _ _ Hself Hsub1).
    assert (Hs1 := lookup_weaken _ _ _ _ Hs Hsub1).
    assert (Hc1 := lookup_weaken _ _ _ _ Hc Hsub1).
    step ltac:(eapply get_ref_eq; [exact Hself1 | reflexivity]).
    step ltac:(eapply get_int_eq; [exact Hc1 | reflexivity]).
    step ltac:(eapply get_ref_eq; [exact Hself1 | reflexivity]).
    step ltac:(eapply get_num_eq; [exact Hs1 | reflexivity]).
    step ltac:(eapply get_ref_eq; [exact Hself1 | reflexivity]).
    step ltac:(eapply get_opt_str_eq; [exact Hc1 | reflexivity]).
    destruct (new_ObjectPrediction_spec h1 _ _ _ _ _ _ _ _ Hpure)
      as (new & h' & ls' & lb' & lc' & vm' & Hrun & Hsub & Hn & Hn1 & Hn2 & Hn3 & Hn4 & Hg).
    exists new, h', ls', lb', lc', vm'.
    split; [exact Hrun|]. split; [now transitivity h1|].
    do 4 (split; [eapply lookup_weaken_None; eassumption|]).
    split; [|exact Hg].
    intros lm' Hlm'. eapply lookup_weaken_None; [exact (Hn4 lm' Hlm') | exact Hsub1].
Qed.


(** C7: the call [self.get_shifted_object_prediction()] on a heap that
    holds a record at [self] returns a reference that was not in use before
    the call; every object of the heap, attribute by attribute, is what it
    was before (the record at [self] and its score, box, category and mask
    objects among them), so [self] still holds the same record; and the new
    reference holds the record the shift computes. *)
Theorem shift_does_not_mutate (h : heap) (self : loc) (r : ObjectPrediction.t) :
  represents h self r →
  ∃ new h' r',
    Store.get_shifted_object_prediction self h = Ok (new, h')
    ∧ h !! new = None
    ∧ (∀ l o, h !! l = Some o → h' !! l = Some o)
    ∧ represents h' self r
    ∧ ObjectPrediction.get_shifted_object_prediction r = Ok r'
    ∧ represents h' new r'.
Proof.
  intros (ls & lb & lc & vm & Hg).
  destruct (shift_spec h self ls lb lc vm r Hg)
    as (new & h' & ls' & lb' & lc' & vm' & Hrun & Hsub & Hn & _ & _ & _ & _ & Hg').
  exists new, h', (shifted_record r).
  split; [exact Hrun|]. split; [exact Hn|]. split.
  - intros l o Hl. eapply lookup_weaken; eassumption.
  - split; [|split].
    + exists ls, lb, lc, vm. eapply object_graph_weaken; eassumption.
    + apply get_shifted_object_prediction_eq.
    + exists ls', lb', lc', vm'. exact Hg'.
Qed.

Lemma tile_heap_graph :
  object_graph tile_heap 1%positive 2%positive 3%positive 4%positive
    (VRef 5%positive) tile_record.
Proof.
  repeat split. exists 5%positive. split; reflexivity.
Defined.

Lemma shift_does_not_mutate_witness :
  represents tile_heap 1%positive tile_record
  ∧ ∃ new h' r',
      Store.get_shifted_object_prediction 1%positive tile_heap = Ok (new, h')
      ∧ tile_heap !! new = None
      ∧ (∀ l o, tile_heap !! l = Some o → h' !! l = Some o)
      ∧ represents h' 1%positive tile_record
      ∧ ObjectPrediction.get_shifted_object_prediction tile_record = Ok r'
      ∧ represents h' new r'.
Proof.
  assert (Hrep : represents tile_heap 1%positive tile_record)
    by (exists 2%positive, 3%positive, 4%positive, (VRef 5%positive);
        exact tile_heap_graph).
  split; [exact Hrep|].
  exact (shift_does_not_mutate tile_heap 1%positive tile_record Hrep).
Defined.

(** An assignment to an attribute of the box of the record is seen in the
    heap: after [self.bbox.minx = 0] the heap no longer holds the record. *)
Example assignment_is_observed :
  ∃ h', (b ← get_ref 1%positive "bbox"; setattr b "minx" (VInt 0)) tile_heap
        = Ok (tt, h')
    ∧ ¬ represents h' 1%positive tile_record.
Proof.
  eexists. split; [reflexivity|].
  intros (ls & lb & lc & vm & Hself & _ & Hb & _).
  apply (f_equal (λ o, o ≫= (.!! "bbox"))) in Hself. vm_compute in Hself.
  injection Hself as <-.
  apply (f_equal (λ o, o ≫= (.!! "minx"))) in Hb. vm_compute in Hb.
  discriminate Hb.
Qed.

(** ** PredictionInput *)

(** *** Shapes *)

Lemma shape_np_divide (image : array3) (m : float) :
  shape (np_divide image m) = shape image.
Proof.
  unfold shape, np_divide. rewrite map_map. apply map_ext; intros row.
  rewrite map_map. apply map_ext; intros px. apply length_map.
Qed.

Lemma shape_to_float_tensor (image : array3) :
  shape (to_float_tensor image) = tensor_shape (shape image).
Proof.
  unfold shape, to_float_tensor, tensor_shape.
  assert (Hc : List.hd 0%nat (List.hd [] (map (map length) image))
               = length (List.hd [] (List.hd [] image))).
  { destruct image as [| [| px row] image]; reflexivity. }
  rewrite Hc, map_map. apply map_ext; intros c.
  rewrite !map_map. apply map_ext; intros row.
  now rewrite !length_map.
Qed.

Lemma shape_image_tensor (a b : array3) :
  flat a ≠ [] → flat b ≠ [] → shape a = shape b →
  shape (image_tensor a) = shape (image_tensor b).
Proof.
  intros Ha Hb Hs. unfold image_tensor, np_max.
  destruct (flat a); [done|]. destruct (flat b); [done|].
  now rewrite !shape_to_float_tensor, !shape_np_divide, Hs.
Qed.

(** *** Entries of the tensor of one image *)

Lemma channels_np_divide (image : array3) (m : float) :
  length (List.hd [] (List.hd [] (np_divide image m)))
  = length (List.hd [] (List.hd [] image)).
Proof.
  destruct image as [| [| px row] image]; cbn; [reflexivity | reflexivity |].
  apply length_map.
Qed.

Lemma to_float_tensor_lookup (image : array3) (c h w : nat) row px x :
  (c < length (List.hd [] (List.hd [] image)))%nat →
  image !! h = Some row → row !! w = Some px → px !! c = Some x →
  ∃ plane line, to_float_tensor image !! c = Some plane
    ∧ plane !! h = Some line ∧ line !! w = Some x.
Proof.
  intros Hc Hh Hw Hx. unfold to_float_tensor. cbv zeta.
  exists (map (map (λ px0, List.nth c px0 0%float)) image),
         (map (λ px0, List.nth c px0 0%float) row).
  split; [|split].
  - rewrite list_lookup_fmap, lookup_seq_lt by exact Hc. reflexivity.
  - rewrite list_lookup_fmap, Hh. reflexivity.
  - rewrite list_lookup_fmap, Hw. cbn. f_equal. now apply nth_lookup_Some.
Qed.

Lemma np_divide_lookup (image : array3) (m : float) (c h w : nat) row px x :
  image !! h = Some row → row !! w = Some px → px !! c = Some x →
  ∃ row' px', np_divide image m !! h = Some row' ∧ row' !! w = Some px'
    ∧ px' !! c = Some (PrimFloat.div x m).
Proof.
  intros Hh Hw Hx. unfold np_divide.
  exists (map (map (λ p, PrimFloat.div p m)) row),
         (map (λ p, PrimFloat.div p m) px).
  split; [|split].
  - rewrite list_lookup_fmap, Hh. reflexivity.
  - rewrite list_lookup_fmap, Hw. reflexivity.
  - rewrite list_lookup_fmap, Hx. reflexivity.
Qed.

(** Entry [c][h][w] of the tensor of an image is entry [h][w][c] of the
    image divided by the maximum of that image. *)
Lemma image_tensor_entry (image : array3) (c h w : nat) row px x :
  (c < length (List.hd [] (List.hd [] image)))%nat →
  image !! h = Some row → row !! w = Some px → px !! c = Some x →
  ∃ m plane line, np_max image = Ok m
    ∧ image_tensor image !! c = Some plane
    ∧ plane !! h = Some line
    ∧ line !! w = Some (PrimFloat.div x m).
Proof.
  intros Hc Hh Hw Hx.
  assert (Hflat : flat image ≠ []).
  { unfold flat. intros Hnil.
    apply list_elem_of_lookup_2, list_elem_of_In in Hh, Hw, Hx.
    assert (Hin : In x (concat (concat image))).
    { apply in_concat. exists px. split; [|exact Hx].
      apply in_concat. exists row. split; [exact Hh | exact Hw]. }
    rewrite Hnil in Hin. exact Hin. }
  unfold image_tensor, np_max. destruct (flat image) as [| y ys]; [done|].
  set (m := fold_left np_maximum ys y).
  destruct (np_divide_lookup image m c h w row px x Hh Hw Hx)
    as (row' & px' & Hh' & Hw' & Hx').
  rewrite <- (channels_np_divide image m) in Hc.
  destruct (to_float_tensor_lookup _ c h w row' px' _ Hc Hh' Hw' Hx')
    as (plane & line & Hp & Hl & He).
  exists m, plane, line. auto.
Qed.

(** *** The loop and the stacking step *)

Lemma loop_body_Ok (acc : list array3) (image : array3) :
  flat image ≠ [] →
  PredictionInput.loop_body acc image = Ok (acc ++ [image_tensor image]).
Proof.
  intros Hne. unfold PredictionInput.loop_body, image_tensor, np_max.
  destruct (flat image); [done | reflexivity].
Qed.

Lemma for_each_loop_body (image_list : list array3) :
  ∀ acc, (∀ a, a ∈ image_list → flat a ≠ []) →
  for_each PredictionInput.loop_body image_list acc
  = Ok (acc ++ map image_tensor image_list).
Proof.
  induction image_list as [| image rest IH]; intros acc Hne; cbn [for_each map].
  - now rewrite app_nil_r.
  - assert (Himage : flat image ≠ []) by (apply Hne; left).
    rewrite loop_body_Ok by exact Himage. cbn [mbind result_bind].
    rewrite IH by (intros a Ha; apply Hne; now right).
    now rewrite <- app_assoc.
Qed.

Lemma torch_stack_same_shape (tensors : list array3) :
  tensors ≠ [] → (∀ a b, a ∈ tensors → b ∈ tensors → shape a = shape b) →
  torch_stack tensors = Ok tensors.
Proof.
  intros Hne Hs. unfold torch_stack. destruct tensors as [| first rest]; [done|].
  replace (forallb _ (first :: rest)) with true; [done|].
  symmetry. apply forallb_forall. intros t Ht%list_elem_of_In.
  apply bool_decide_eq_true. apply Hs; [exact Ht | left].
Qed.

Lemma default_offsets (n : nat) :
  map (λ _ : nat, [0; 0]) (seq 0 n) = replicate n [0; 0].
Proof.
  generalize 0%nat. induction n as [| n IH]; intros k; cbn; [done | now rewrite IH].
Qed.

Lemma three_tiles_stackable : stackable three_tiles.
Proof.
  split; [discriminate|]. split.
  - intros a b Ha Hb. unfold three_tiles in *.
    repeat (apply elem_of_cons in Ha as [-> | Ha]);
    repeat (apply elem_of_cons in Hb as [-> | Hb]);
    solve [reflexivity | inversion Ha | inversion Hb].
  - intros a Ha. unfold three_tiles in *.
    repeat (apply elem_of_cons in Ha as [-> | Ha]);
    solve [discriminate | inversion Ha].
Defined.

Section Stackable.

Variable image_list : list array3.
Variable full_image_size : option (list Z).
Hypothesis Hstackable : stackable image_list.

(** On a stackable image list the constructor returns, whatever the
    offsets argument. *)
Lemma init_stackable (offsets : option (list (list Z))) :
  PredictionInput.init image_list offsets full_image_size =
  Ok {| PredictionInput.image_list := image_list;
        PredictionInput.batch_image_tensor := map image_tensor image_list;
        PredictionInput.shift_amount_list :=
          if truthy offsets then default [] offsets
          else map (λ _, [0; 0]) (seq 0 (length image_list));
        PredictionInput.full_image_size := full_image_size |}.
Proof.
  destruct Hstackable as (Hne & Hs & Hflat). unfold PredictionInput.init.
  rewrite for_each_loop_body by exact Hflat. cbn [app mbind result_bind].
  rewrite torch_stack_same_shape; [reflexivity | |].
  - destruct image_list; [done | discriminate].
  - intros a b (a' & -> & Ha)%list_elem_of_fmap (b' & -> & Hb)%list_elem_of_fmap.
    apply shape_image_tensor; auto.
Qed.

(** C2, as amended: a supplied, non-empty [shift_amount_list] is stored as
    given, whatever its length; construction does not fail on a length that
    differs from the length of [image_list]. *)
Theorem supplied_offsets_are_stored (offsets : list (list Z)) :
  offsets ≠ [] →
  ∃ self, PredictionInput.init image_list (Some offsets) full_image_size = Ok self
    ∧ PredictionInput.shift_amount_list self = offsets.
Proof.
  intros Hne. rewrite init_stackable.
  eexists; split; [reflexivity|]. cbn. now destruct offsets.
Qed.

(** C8: without [shift_amount_list], the constructed input has
    [shift_amount_list] equal to [[0, 0]] repeated once per image. *)
Theorem default_offsets_are_zero :
  ∃ self, PredictionInput.init image_list None full_image_size = Ok self
    ∧ PredictionInput.shift_amount_list self
      = replicate (length image_list) [0; 0].
Proof.
  rewrite init_stackable.
  eexists; split; [reflexivity|]. cbn. apply default_offsets.
Qed.

(** C10: an explicitly empty [shift_amount_list] raises nothing and is
    treated exactly like an omitted one: the constructor returns the same
    result, with [[0, 0]] repeated once per image. *)
Theorem empty_offsets_treated_as_omitted :
  ∃ self, PredictionInput.init image_list (Some []) full_image_size = Ok self
    ∧ PredictionInput.shift_amount_list self
      = replicate (length image_list) [0; 0]
    ∧ PredictionInput.init image_list (Some []) full_image_size
      = PredictionInput.init image_list None full_image_size.
Proof.
  rewrite !init_stackable.
  eexists; split; [reflexivity|]. cbn. split; [apply default_offsets | reflexivity].
Qed.

End Stackable.

(** Whenever the constructor returns, on any image list, it has stored its
    arguments and chosen the offsets by the truth value of the argument. *)
Lemma init_Ok_inv (image_list : list array3) (offsets : option (list (list Z)))
    (full_image_size : option (list Z)) (self : PredictionInput.t) :
  PredictionInput.init image_list offsets full_image_size = Ok self →
  PredictionInput.image_list self = image_list
  ∧ PredictionInput.full_image_size self = full_image_size
  ∧ PredictionInput.shift_amount_list self
    = (if truthy offsets then default [] offsets
       else replicate (length image_list) [0; 0]).
Proof.
  intros H. unfold PredictionInput.init in H. inv_bind H. injection H as <-.
  cbn. now rewrite default_offsets.
Qed.

(** Outside the contract the constructor raises: on an empty image list, on
    images of different shapes, on an image without scalars. *)
Example init_empty_list :
  PredictionInput.init [] None None = Err EmptyBatch.
Proof. reflexivity. Qed.

Example init_heterogeneous :
  PredictionInput.init [tile_a; [[[1%float]]]] None None = Err ShapeMismatch.
Proof. reflexivity. Qed.

Example init_zero_size_image :
  PredictionInput.init [[[[]]]] None None = Err ValueError.
Proof. reflexivity. Qed.

(** C2, as stated, fails: three images with two offsets construct. *)
Lemma length_mismatch_is_accepted :
  length three_tiles = 3%nat ∧ length two_offsets = 2%nat
  ∧ ¬ raises (PredictionInput.init three_tiles (Some two_offsets) None).
Proof.
  split; [reflexivity|]. split; [reflexivity|].
  intros (e & He). vm_compute in He. discriminate He.
Qed.

Lemma supplied_offsets_are_stored_witness :
  stackable three_tiles ∧ two_offsets ≠ [] ∧
  ∃ self, PredictionInput.init three_tiles (Some two_offsets) None = Ok self
    ∧ PredictionInput.shift_amount_list self = two_offsets.
Proof.
  split; [exact three_tiles_stackable|]. split; [discriminate|].
  apply supplied_offsets_are_stored; [exact three_tiles_stackable | discriminate].
Defined.

Lemma default_offsets_are_zero_witness :
  stackable three_tiles ∧
  ∃ self, PredictionInput.init three_tiles None None = Ok self
    ∧ PredictionInput.shift_amount_list self = [[0; 0]; [0; 0]; [0; 0]].
Proof.
  split; [exact three_tiles_stackable|].
  exact (default_offsets_are_zero three_tiles None three_tiles_stackable).
Defined.

Lemma empty_offsets_treated_as_omitted_witness :
  stackable three_tiles ∧
  ∃ self, PredictionInput.init three_tiles (Some []) None = Ok self
    ∧ PredictionInput.shift_amount_list self = [[0; 0]; [0; 0]; [0; 0]]
    ∧ PredictionInput.init three_tiles (Some []) None
      = PredictionInput.init three_tiles None None.
Proof.
  split; [exact three_tiles_stackable|].
  exact (empty_offsets_treated_as_omitted three_tiles None three_tiles_stackable).
Defined.

(** Two images with different maxima each peak at 1 after normalisation. *)
Example per_image_peak :
  np_max (image_tensor tile_a) = Ok 1%float
  ∧ np_max (image_tensor tile_b) = Ok 1%float
  ∧ np_max tile_a = Ok 100%float ∧ np_max tile_b = Ok 50%float.
Proof. repeat split; reflexivity. Qed.

(** An all-zero image does not raise: its tensor is filled with NaN. *)
Example all_zero_image :
  ∃ self, PredictionInput.init [[[[0%float]]]] None None = Ok self
    ∧ PredictionInput.batch_image_tensor self = [[[[PrimFloat.nan]]]].
Proof. eexists; split; reflexivity. Qed.

(** * Further properties *)

(** ** Binary64 comparison, continued *)

Lemma SFcompare_value (f1 f2 : spec_float) :
  valid_binary f1 = true → valid_binary f2 = true →
  SFcompare f1 f2 = xcompare (SFvalue f1) (SFvalue f2).
Proof.
  intros V1 V2.
  destruct f1 as [s1 | s1 | | s1 m1 e1], f2 as [s2 | s2 | | s2 m2 e2];
    cbn [SFcompare SFvalue xcompare valid_binary] in *;
    try reflexivity;
    try (pose proof (scaled_pos _ _ V1) as P1);
    try (pose proof (scaled_pos _ _ V2) as P2).
  3: {
    pose proof (scaled_compare _ _ _ _ V1 V2) as Hc. f_equal.
    destruct s1, s2.
    - transitivity (CompOpp (Z.pos m1 * 2 ^ (e1 + 1074) ?= Z.pos m2 * 2 ^ (e2 + 1074))).
      + rewrite <- Hc. now destruct (e1 ?= e2).
      + rewrite <- Z.compare_antisym.
        replace (-1 * (Z.pos m1 * 2 ^ (e1 + 1074)))
          with (- (Z.pos m1 * 2 ^ (e1 + 1074))) by lia.
        replace (-1 * (Z.pos m2 * 2 ^ (e2 + 1074)))
          with (- (Z.pos m2 * 2 ^ (e2 + 1074))) by lia.
        symmetry. apply Z.compare_opp.
    - symmetry. apply Z.compare_lt_iff. lia.
    - symmetry. apply Z.compare_gt_iff. lia.
    - rewrite Hc. f_equal; lia. }
  all: try (destruct s1); try (destruct s2); try reflexivity; f_equal; symmetry;
    first [apply Z.compare_lt_iff; lia | apply Z.compare_gt_iff; lia].
Qed.

Lemma compare_value (x y : float) :
  SFcompare (Prim2SF x) (Prim2SF y) = xcompare (value x) (value y).
Proof. apply SFcompare_value; apply Prim2SF_valid. Qed.

Lemma xcompare_lt (a b : xval) : xcompare a b = Some Lt ↔ xlt a b.
Proof.
  destruct a as [| [] | x], b as [| [] | y]; cbn; split;
    try (discriminate || contradiction || reflexivity || tauto);
    try (intros [= H]; now apply Z.compare_lt_iff);
    try (intros H; f_equal; now apply Z.compare_lt_iff).
Qed.

Lemma xcompare_eq (a b : xval) : xcompare a b = Some Eq ↔ a = b ∧ a ≠ XNaN.
Proof.
  destruct a as [| [] | x], b as [| [] | y]; cbn; split;
    try (discriminate || (intros [? ?]; done) || (intros _; done)).
  - intros [= H%Z.compare_eq_iff]. now subst.
  - intros [[= ->] _]. now rewrite Z.compare_refl.
Qed.

Lemma xcompare_refl (v : xval) : v ≠ XNaN → xcompare v v = Some Eq.
Proof. intros H. now apply xcompare_eq. Qed.

Lemma leb_value (x y : float) :
  PrimFloat.leb x y = true ↔ xle (value x) (value y).
Proof.
  unfold xle. rewrite <- xcompare_lt, <- xcompare_eq.
  rewrite leb_spec. unfold SFleb. rewrite compare_value.
  destruct (xcompare (value x) (value y)) as [[] |]; split;
    (tauto || discriminate || (intros [H | H]; discriminate) || auto).
Qed.

Lemma is_nan_value (x : float) : PrimFloat.is_nan x = true ↔ value x = XNaN.
Proof.
  unfold PrimFloat.is_nan. rewrite FloatAxioms.eqb_spec.
  unfold SFeqb. rewrite compare_value. split.
  - intros H. destruct (value x) as [| s | z] eqn:E; [reflexivity | |];
      rewrite xcompare_refl in H by discriminate; discriminate.
  - intros ->. reflexivity.
Qed.

Lemma is_nan_false_value (x : float) :
  PrimFloat.is_nan x = false ↔ value x ≠ XNaN.
Proof.
  split.
  - intros H Hv%is_nan_value. congruence.
  - intros H. destruct (PrimFloat.is_nan x) eqn:E; [|reflexivity].
    apply is_nan_value in E. contradiction.
Qed.

Lemma xlt_trans (a b c : xval) : xlt a b → xlt b c → xlt a c.
Proof.
  destruct a as [| [] | x], b as [| [] | y], c as [| [] | z]; cbn;
    try (tauto || discriminate || lia); intros; (done || lia).
Qed.

Lemma xlt_asym (a b : xval) : xlt a b → ¬ xlt b a.
Proof. intros H H'. exact (xlt_irrefl _ (xlt_trans _ _ _ H H')). Qed.

Lemma xlt_total (a b : xval) :
  a ≠ XNaN → b ≠ XNaN → xlt a b ∨ a = b ∨ xlt b a.
Proof.
  destruct a as [| [] | x], b as [| [] | y]; cbn; intros Ha Hb; try done; auto.
  destruct (Z.lt_trichotomy x y) as [H | [-> | H]]; auto.
Qed.

Lemma xlt_not_nan (a b : xval) : xlt a b → a ≠ XNaN ∧ b ≠ XNaN.
Proof. destruct a as [| [] |], b as [| [] |]; cbn; intros H; try done. Qed.

Lemma xle_refl (a : xval) : a ≠ XNaN → xle a a.
Proof. right. auto. Qed.

Lemma xle_not_nan (a b : xval) : xle a b → a ≠ XNaN ∧ b ≠ XNaN.
Proof. intros [H | [<- H]]; [now apply xlt_not_nan | auto]. Qed.

Lemma xle_trans (a b c : xval) : xle a b → xle b c → xle a c.
Proof.
  intros [H1 | [<- H1]] [H2 | [<- H2]].
  - left. eapply xlt_trans; eauto.
  - left. exact H1.
  - left. exact H2.
  - right. auto.
Qed.

Lemma xle_total (a b : xval) : a ≠ XNaN → b ≠ XNaN → xle a b ∨ xle b a.
Proof.
  intros Ha Hb. destruct (xlt_total a b Ha Hb) as [H | [-> | H]].
  - left. now left.
  - left. now apply xle_refl.
  - right. now left.
Qed.

(** ** PredictionScore, continued *)

(** X1: a score read back from a constructed PredictionScore and handed to
    the constructor again gives the same PredictionScore: unwrapping happens
    once, and the stored value is a fixed point of construction. *)
Theorem score_reconstruction_is_identity
    (score : pynum) (self : PredictionScore.t) :
  PredictionScore.init score = Ok self →
  PredictionScore.init (PredictionScore.score self) = Ok self.
Proof.
  rewrite PredictionScore_init_plain. intros [= <-]. reflexivity.
Qed.

Lemma score_reconstruction_is_identity_witness :
  PredictionScore.init (NpFloat 0.875%float)
  = Ok (PredictionScore.mk (PyFloat 0.875%float))
  ∧ PredictionScore.init (PyFloat 0.875%float)
    = Ok (PredictionScore.mk (PyFloat 0.875%float)).
Proof.
  split; [reflexivity|].
  apply (score_reconstruction_is_identity (NpFloat 0.875%float)
           (PredictionScore.mk (PyFloat 0.875%float))).
  reflexivity.
Defined.

(** X2: the comparison is transitive: a score above a threshold is above
    every number that threshold is itself above, so lowering a threshold
    never rejects a score that passed. *)
Theorem threshold_transitive (a b c : pynum) :
  PredictionScore.is_greater_than_threshold (PredictionScore.mk a) b = true →
  PredictionScore.is_greater_than_threshold (PredictionScore.mk b) c = true →
  PredictionScore.is_greater_than_threshold (PredictionScore.mk a) c = true.
Proof.
  unfold PredictionScore.is_greater_than_threshold, py_gt. cbn.
  rewrite !ltb_value. intros H1 H2. exact (xlt_trans _ _ _ H2 H1).
Qed.

Lemma threshold_transitive_witness :
  PredictionScore.is_greater_than_threshold
    (PredictionScore.mk (PyFloat 0.875%float)) (PyFloat 0.25%float) = true.
Proof.
  apply (threshold_transitive (PyFloat 0.875%float) (NpFloat 0.5%float)
           (PyFloat 0.25%float)); reflexivity.
Defined.

(** X3: the comparison is asymmetric: if a is above b, then b is not above
    a. *)
Theorem threshold_asymmetric (a b : pynum) :
  PredictionScore.is_greater_than_threshold (PredictionScore.mk a) b = true →
  PredictionScore.is_greater_than_threshold (PredictionScore.mk b) a = false.
Proof.
  unfold PredictionScore.is_greater_than_threshold, py_gt. cbn.
  intros H%ltb_value. apply not_true_is_false. intros H'%ltb_value.
  exact (xlt_asym _ _ H H').
Qed.

Lemma threshold_asymmetric_witness :
  PredictionScore.is_greater_than_threshold
    (PredictionScore.mk (PyFloat 0.5%float)) (PyFloat 0.875%float) = false.
Proof.
  apply (threshold_asymmetric (PyFloat 0.875%float) (PyFloat 0.5%float)).
  reflexivity.
Defined.

(** X4: a NaN score is above no threshold, and no score is above a NaN
    threshold. *)
Theorem nan_is_never_above (self : PredictionScore.t) (threshold : pynum) :
  PrimFloat.is_nan (float_of (PredictionScore.score self)) = true
  ∨ PrimFloat.is_nan (float_of threshold) = true →
  PredictionScore.is_greater_than_threshold self threshold = false.
Proof.
  unfold PredictionScore.is_greater_than_threshold, py_gt.
  intros H. apply not_true_is_false. intros Hlt%ltb_value.
  destruct H as [H%is_nan_value | H%is_nan_value]; rewrite H in Hlt.
  - now destruct (value (float_of threshold)) as [| [] |].
  - exact Hlt.
Qed.

Lemma nan_is_never_above_witness :
  PredictionScore.is_greater_than_threshold
    (PredictionScore.mk (PyFloat 0.875%float)) (PyFloat PrimFloat.nan) = false.
Proof.
  apply (nan_is_never_above (PredictionScore.mk (PyFloat 0.875%float))
           (PyFloat PrimFloat.nan)).
  right. reflexivity.
Defined.

(** X5: two scores that are not NaN are above neither one another exactly
    when they have the same value (0.0 and -0.0 included); otherwise one of
    them is above the other. *)
Theorem threshold_total (a b : pynum) :
  PrimFloat.is_nan (float_of a) = false →
  PrimFloat.is_nan (float_of b) = false →
  (PredictionScore.is_greater_than_threshold (PredictionScore.mk a) b = false
   ∧ PredictionScore.is_greater_than_threshold (PredictionScore.mk b) a = false)
  ↔ value (float_of a) = value (float_of b).
Proof.
  unfold PredictionScore.is_greater_than_threshold, py_gt. cbn.
  intros Ha%is_nan_false_value Hb%is_nan_false_value. split.
  - intros [H1 H2].
    destruct (xlt_total _ _ Ha Hb) as [H | [H | H]]; [| exact H |];
      apply ltb_value in H; congruence.
  - intros Heq. split; apply not_true_is_false; intros H%ltb_value;
      rewrite Heq in H; exact (xlt_irrefl _ H).
Qed.

Lemma threshold_total_witness :
  value 0%float = value (-0)%float.
Proof.
  apply (threshold_total (PyFloat 0%float) (PyFloat (-0)%float));
    [reflexivity | reflexivity |].
  split; reflexivity.
Defined.

(** ** ObjectPrediction, continued *)

Lemma translate_zero (rows : list (list bool)) : Mask.translate 0 0 rows = rows.
Proof.
  unfold Mask.translate. change (Z.to_nat 0) with 0%nat. cbn [replicate app].
  induction rows as [| row rows IH]; [reflexivity|].
  cbn [map app]. now rewrite IH.
Qed.

Lemma get_shifted_box_idempotent (b : BoundingBox.t) :
  BoundingBox.get_shifted_box (BoundingBox.get_shifted_box b)
  = BoundingBox.get_shifted_box b.
Proof. unfold BoundingBox.get_shifted_box. cbn. now rewrite !Z.add_0_r. Qed.

Lemma get_shifted_mask_idempotent (m : Mask.t) :
  Mask.get_shifted_mask (Mask.get_shifted_mask m) = Mask.get_shifted_mask m.
Proof. unfold Mask.get_shifted_mask. cbn. now rewrite translate_zero. Qed.

Lemma shifted_record_idempotent (r : ObjectPrediction.t) :
  shifted_record (shifted_record r) = shifted_record r.
Proof.
  destruct r as [[s] [b m c sa fis]].
  unfold shifted_record. cbn. rewrite get_shifted_box_idempotent.
  destruct m as [m |]; cbn; [|reflexivity].
  now rewrite get_shifted_mask_idempotent.
Qed.

(** X6: every record built by the constructor holds a plain Python float as
    its score, and the shift keeps this: what it returns is again a record
    built by the constructor, with a plain score. *)
Theorem constructed_score_is_plain (r : ObjectPrediction.t) :
  constructed r →
  is_plain (PredictionScore.score (ObjectPrediction.score r))
  ∧ ∀ r', ObjectPrediction.get_shifted_object_prediction r = Ok r' →
      constructed r'
      ∧ is_plain (PredictionScore.score (ObjectPrediction.score r')).
Proof.
  intros (bbox & score & cid & cname & bm & sa & fis & Hinit).
  unfold ObjectPrediction.init in Hinit. inv_bind Hinit. injection Hinit as <-.
  rewrite PredictionScore_init_plain in Ha. injection Ha as <-.
  split; [eexists; reflexivity|].
  intros r' Hr'. split.
  - unfold ObjectPrediction.get_shifted_object_prediction in Hr'.
    destruct (ObjectPrediction.mask _); repeat eexists; exact Hr'.
  - rewrite get_shifted_object_prediction_eq in Hr'. injection Hr' as <-.
    eexists; reflexivity.
Qed.

Lemma constructed_score_is_plain_witness :
  constructed tile_record
  ∧ is_plain (PredictionScore.score (ObjectPrediction.score tile_record)).
Proof.
  split; [exact tile_record_constructed|].
  exact (proj1 (constructed_score_is_plain tile_record tile_record_constructed)).
Defined.

(** X7: the shift is idempotent: since the record it returns carries the
    offset [0, 0], shifting that record again returns it unchanged; a second
    call does not move the box or the mask a second time. *)
Theorem shift_twice_is_shift_once (r r' : ObjectPrediction.t) :
  ObjectPrediction.get_shifted_object_prediction r = Ok r' →
  ObjectPrediction.get_shifted_object_prediction r' = Ok r'.
Proof.
  rewrite get_shifted_object_prediction_eq. intros [= <-].
  rewrite get_shifted_object_prediction_eq. f_equal.
  apply shifted_record_idempotent.
Qed.

Lemma shift_twice_is_shift_once_witness :
  ObjectPrediction.get_shifted_object_prediction tile_record
  = Ok (shifted_record tile_record)
  ∧ ObjectPrediction.get_shifted_object_prediction (shifted_record tile_record)
    = Ok (shifted_record tile_record).
Proof.
  split; [reflexivity|].
  apply (shift_twice_is_shift_once tile_record). reflexivity.
Defined.

(** X8: the record returned shares no object with the record it was made
    from: the new record and its score, box, category and mask objects are
    all at references that were not in use before the call, hence different
    from [self] and from the score, box, category and mask objects of
    [self]. *)
Theorem shift_shares_no_object
    (h : heap) (self ls lb lc : loc) (vm : val) (r : ObjectPrediction.t) :
  object_graph h self ls lb lc vm r →
  ∃ new h' ls' lb' lc' vm' r',
    Store.get_shifted_object_prediction self h = Ok (new, h')
    ∧ object_graph h' new ls' lb' lc' vm' r'
    ∧ h !! new = None ∧ h !! ls' = None ∧ h !! lb' = None ∧ h !! lc' = None
    ∧ (∀ lm', vm' = VRef lm' → h !! lm' = None)
    ∧ new ≠ self ∧ ls' ≠ ls ∧ lb' ≠ lb ∧ lc' ≠ lc
    ∧ (∀ lm lm', vm = VRef lm → vm' = VRef lm' → lm' ≠ lm).
Proof.
  intros Hg.
  destruct (shift_spec h self ls lb lc vm r Hg)
    as (new & h' & ls' & lb' & lc' & vm' & Hrun & Hsub & Hn & Hn1 & Hn2 & Hn3 & Hn4 & Hg').
  destruct Hg as (Hself & Hs & Hb & Hc & Hm).
  exists new, h', ls', lb', lc', vm', (shifted_record r).
  split; [exact Hrun|]. split; [exact Hg'|].
  do 4 (split; [assumption|]). split; [exact Hn4|].
  do 4 (split; [congruence|]).
  intros lm lm' -> Hvm' <-. specialize (Hn4 _ Hvm').
  destruct (ObjectPrediction.mask r); [|discriminate].
  destruct Hm as (lm0 & [= <-] & Hm). congruence.
Qed.

Lemma shift_shares_no_object_witness :
  ∃ new h' ls' lb' lc' vm' r',
    Store.get_shifted_object_prediction 1%positive tile_heap = Ok (new, h')
    ∧ object_graph h' new ls' lb' lc' vm' r'
    ∧ tile_heap !! new = None ∧ tile_heap !! ls' = None
    ∧ tile_heap !! lb' = None ∧ tile_heap !! lc' = None
    ∧ (∀ lm', vm' = VRef lm' → tile_heap !! lm' = None)
    ∧ new ≠ 1%positive ∧ ls' ≠ 2%positive ∧ lb' ≠ 3%positive ∧ lc' ≠ 4%positive
    ∧ (∀ lm lm', VRef 5%positive = VRef lm → vm' = VRef lm' → lm' ≠ lm).
Proof.
  exact (shift_shares_no_object tile_heap 1%positive 2%positive 3%positive
           4%positive (VRef 5%positive) tile_record tile_heap_graph).
Defined.

(** ** PredictionInput, continued *)

(** *** The loop and the stacking step, inverted *)

Lemma loop_body_zero_size (acc : list array3) (image : array3) :
  flat image = [] → PredictionInput.loop_body acc image = Err ValueError.
Proof.
  intros H. unfold PredictionInput.loop_body, np_max. now rewrite H.
Qed.

Lemma for_each_zero_size (image_list : list array3) :
  ∀ acc, (∃ a, a ∈ image_list ∧ flat a = []) →
  for_each PredictionInput.loop_body image_list acc = Err ValueError.
Proof.
  induction image_list as [| image rest IH]; intros acc (a & Ha & Hz).
  - inversion Ha.
  - cbn [for_each]. destruct (flat image) as [| x xs] eqn:E.
    + now rewrite loop_body_zero_size.
    + rewrite loop_body_Ok by (rewrite E; discriminate). cbn [mbind result_bind].
      apply IH. apply elem_of_cons in Ha as [-> | Ha]; [congruence | eauto].
Qed.

Lemma for_each_Ok_inv (image_list : list array3) (acc res : list array3) :
  for_each PredictionInput.loop_body image_list acc = Ok res →
  (∀ a, a ∈ image_list → flat a ≠ []) ∧ res = acc ++ map image_tensor image_list.
Proof.
  intros H.
  assert (Hall : ∀ a, a ∈ image_list → flat a ≠ []).
  { intros a Ha Hz. rewrite for_each_zero_size in H by eauto. discriminate. }
  split; [exact Hall|].
  rewrite for_each_loop_body in H by exact Hall. now injection H.
Qed.

Lemma torch_stack_Ok_inv (tensors res : list array3) :
  torch_stack tensors = Ok res →
  tensors ≠ [] ∧ res = tensors
  ∧ ∀ a b, a ∈ tensors → b ∈ tensors → shape a = shape b.
Proof.
  unfold torch_stack. destruct tensors as [| first rest]; [discriminate|].
  destruct (forallb _ _) eqn:E; [|discriminate].
  intros [= <-]. split; [discriminate|]. split; [reflexivity|].
  rewrite forallb_forall in E.
  assert (Hf : ∀ t, t ∈ first :: rest → shape t = shape first).
  { intros t Ht%list_elem_of_In. apply E in Ht.
    now apply bool_decide_eq_true in Ht. }
  intros a b Ha Hb. rewrite (Hf a Ha), (Hf b Hb). reflexivity.
Qed.

(** *** Shapes of proper arrays *)

Lemma flat_elem (image : array3) :
  flat image ≠ [] → ∃ row px x, In row image ∧ In px row ∧ In x px.
Proof.
  unfold flat. intros H.
  destruct (concat (concat image)) as [| x xs] eqn:E; [done|].
  assert (Hin : In x (concat (concat image))) by (rewrite E; now left).
  apply in_concat in Hin as (px & Hpx & Hx).
  apply in_concat in Hpx as (row & Hrow & Hpx). exists row, px, x. auto.
Qed.

Lemma rectangular_dims (image : array3) (h w c : nat) :
  shape image = replicate h (replicate w c) → flat image ≠ [] →
  (0 < h ∧ 0 < w ∧ 0 < c)%nat.
Proof.
  intros Hs (row & px & x & Hrow & Hpx & Hx)%flat_elem.
  assert (Hr : In (map length row) (replicate h (replicate w c))).
  { rewrite <- Hs. unfold shape. now apply in_map. }
  apply list_elem_of_In, elem_of_replicate in Hr as [Hr Hh].
  assert (Hp : In (length px) (replicate w c)).
  { rewrite <- Hr. now apply in_map. }
  apply list_elem_of_In, elem_of_replicate in Hp as [Hp Hw].
  destruct px; [inversion Hx|]. cbn in Hp. lia.
Qed.

Lemma map_const_seq {A} (v : A) (n k : nat) :
  map (λ _ : nat, v) (seq k n) = replicate n v.
Proof.
  revert k. induction n as [| n IH]; intros k; cbn; [done | now rewrite IH].
Qed.

Lemma map_length_replicate {A} (n : nat) (l : list A) :
  map length (replicate n l) = replicate n (length l).
Proof. induction n as [| n IH]; cbn; [done | now rewrite IH]. Qed.

(** An image of shape h x w x c gives a tensor of shape c x h x w. *)
Lemma tensor_shape_rectangular (h w c : nat) :
  (0 < h)%nat → (0 < w)%nat →
  tensor_shape (replicate h (replicate w c)) = replicate c (replicate h w).
Proof.
  intros Hh Hw. unfold tensor_shape.
  rewrite map_const_seq, map_length_replicate, length_replicate.
  destruct h as [| h]; [lia|]. destruct w as [| w]; [lia|]. reflexivity.
Qed.

Lemma replicate2_inj (c h w c' h' w' : nat) :
  (0 < c)%nat → (0 < h)%nat →
  replicate c (replicate h w) = replicate c' (replicate h' w') →
  c = c' ∧ h = h' ∧ w = w'.
Proof.
  intros Hc Hh Heq.
  assert (c = c') as <-
    by (apply (f_equal length) in Heq; now rewrite !length_replicate in Heq).
  destruct c as [| c]; [lia|]. cbn in Heq. injection Heq as Heq _.
  assert (h = h') as <-
    by (apply (f_equal length) in Heq; now rewrite !length_replicate in Heq).
  destruct h as [| h]; [lia|]. cbn in Heq. injection Heq as Heq _. auto.
Qed.

(** Among proper arrays with at least one scalar, the shape of the tensor
    determines the shape of the image. *)
Lemma shape_image_tensor_inj (a b : array3) :
  rectangular a → rectangular b → flat a ≠ [] → flat b ≠ [] →
  shape (image_tensor a) = shape (image_tensor b) → shape a = shape b.
Proof.
  intros (h & w & c & Ha) (h' & w' & c' & Hb) Hfa Hfb.
  destruct (rectangular_dims a h w c Ha Hfa) as (Hh & Hw & Hc).
  destruct (rectangular_dims b h' w' c' Hb Hfb) as (Hh' & Hw' & Hc').
  unfold image_tensor, np_max.
  destruct (flat a); [done|]. destruct (flat b); [done|].
  rewrite !shape_to_float_tensor, !shape_np_divide, Ha, Hb.
  rewrite !tensor_shape_rectangular by assumption.
  intros (-> & -> & ->)%replicate2_inj; auto.
Qed.

Lemma tiles_rectangular (a : array3) :
  a ∈ three_tiles → rectangular a.
Proof.
  intros Ha. exists 1%nat, 2%nat, 3%nat. unfold three_tiles in Ha.
  repeat (apply elem_of_cons in Ha as [-> | Ha]);
    solve [reflexivity | inversion Ha].
Defined.

(** *** Failure and success of construction *)

(** X9: an image without scalars makes construction raise [ValueError],
    wherever it stands in the list and whatever the other images, the
    offsets and the full-image size are: the loop over the images runs, and
    raises, before anything is stacked. *)
Theorem zero_size_image_raises_first
    (image_list : list array3) (offsets : option (list (list Z)))
    (fis : option (list Z)) (a : array3) :
  a ∈ image_list → flat a = [] →
  PredictionInput.init image_list offsets fis = Err ValueError.
Proof.
  intros Ha Hz. unfold PredictionInput.init.
  rewrite for_each_zero_size by eauto. reflexivity.
Qed.

Lemma zero_size_image_raises_first_witness :
  PredictionInput.init [tile_a; [[[1%float]]]; zero_size] (Some two_offsets) None
  = Err ValueError.
Proof.
  apply (zero_size_image_raises_first _ _ _ zero_size); [|reflexivity].
  do 2 apply list_elem_of_further. apply list_elem_of_here.
Defined.

(** X10: on proper arrays, construction returns exactly when the image
    list is non-empty, its images have one shape, and each has at least one
    scalar; the offsets and the full-image size play no part in it. *)
Theorem init_succeeds_iff_stackable
    (image_list : list array3) (offsets : option (list (list Z)))
    (fis : option (list Z)) :
  (∀ a, a ∈ image_list → rectangular a) →
  (∃ self, PredictionInput.init image_list offsets fis = Ok self)
  ↔ stackable image_list.
Proof.
  intros Hrect. split.
  - intros (self & H). unfold PredictionInput.init in H. inv_bind H.
    apply for_each_Ok_inv in Ha as [Hflat ->].
    apply torch_stack_Ok_inv in Ha0 as (Hne & _ & Hshape). cbn [app] in *.
    split; [now destruct image_list|]. split; [|exact Hflat].
    intros x y Hx Hy. apply shape_image_tensor_inj; auto.
    apply Hshape; apply list_elem_of_fmap; eauto.
  - intros Hst. rewrite init_stackable by exact Hst. eauto.
Qed.

Lemma init_succeeds_iff_stackable_witness :
  (∀ a, a ∈ three_tiles → rectangular a)
  ∧ ∃ self, PredictionInput.init three_tiles (Some two_offsets) None = Ok self.
Proof.
  split; [exact tiles_rectangular|].
  apply (init_succeeds_iff_stackable three_tiles (Some two_offsets) None
           tiles_rectangular).
  exact three_tiles_stackable.
Defined.

(** X11: on proper arrays that each have at least one scalar, two images of
    different shapes anywhere in the list make construction raise
    [ShapeMismatch]. *)
Theorem shape_mismatch_raises
    (image_list : list array3) (offsets : option (list (list Z)))
    (fis : option (list Z)) (a b : array3) :
  (∀ x, x ∈ image_list → rectangular x ∧ flat x ≠ []) →
  a ∈ image_list → b ∈ image_list → shape a ≠ shape b →
  PredictionInput.init image_list offsets fis = Err ShapeMismatch.
Proof.
  intros Hall Ha Hb Hne. unfold PredictionInput.init.
  rewrite for_each_loop_body by (intros x Hx; now apply Hall).
  cbn [app mbind result_bind].
  destruct (torch_stack (map image_tensor image_list)) as [res | e] eqn:E.
  - exfalso. apply torch_stack_Ok_inv in E as (_ & _ & Hshape).
    apply Hne. apply shape_image_tensor_inj; try (now apply Hall).
    apply Hshape; apply list_elem_of_fmap; eauto.
  - unfold torch_stack in E. destruct (map image_tensor image_list) eqn:E'.
    + destruct image_list; [inversion Ha | discriminate].
    + destruct (forallb _ _); [discriminate | injection E as <-; reflexivity].
Qed.

Lemma shape_mismatch_raises_witness :
  PredictionInput.init [tile_a; [[[1%float]]]] None None = Err ShapeMismatch.
Proof.
  apply (shape_mismatch_raises _ _ _ tile_a [[[1%float]]]).
  - intros x Hx.
    repeat (apply elem_of_cons in Hx as [-> | Hx]); [| | inversion Hx].
    + split; [exists 1%nat, 2%nat, 3%nat; reflexivity | discriminate].
    + split; [exists 1%nat, 1%nat, 1%nat; reflexivity | discriminate].
  - apply list_elem_of_here.
  - apply list_elem_of_further, list_elem_of_here.
  - discriminate.
Defined.

(** X12: whenever construction returns, the stored [image_list] is the
    argument itself (the raw images, not the normalised ones), the stored
    [full_image_size] is the argument, and the batch tensor has one entry
    per image; with any other offsets and full-image size construction
    returns as well, with the same batch tensor. *)
Theorem offsets_do_not_affect_batch
    (image_list : list array3) (offsets offsets' : option (list (list Z)))
    (fis fis' : option (list Z)) (self : PredictionInput.t) :
  PredictionInput.init image_list offsets fis = Ok self →
  PredictionInput.image_list self = image_list
  ∧ PredictionInput.full_image_size self = fis
  ∧ length (PredictionInput.batch_image_tensor self) = length image_list
  ∧ ∃ self', PredictionInput.init image_list offsets' fis' = Ok self'
      ∧ PredictionInput.batch_image_tensor self'
        = PredictionInput.batch_image_tensor self.
Proof.
  intros H. unfold PredictionInput.init in *. inv_bind H. injection H as <-.
  rewrite Ha. cbn [mbind result_bind]. rewrite Ha0. cbn [mbind result_bind].
  apply for_each_Ok_inv in Ha as [_ ->].
  apply torch_stack_Ok_inv in Ha0 as (_ & -> & _).
  cbn. rewrite length_map. eauto 10.
Qed.

Lemma offsets_do_not_affect_batch_witness :
  ∃ self self',
    PredictionInput.init three_tiles None None = Ok self
    ∧ PredictionInput.init three_tiles (Some two_offsets) (Some [100; 200]) = Ok self'
    ∧ PredictionInput.batch_image_tensor self'
      = PredictionInput.batch_image_tensor self.
Proof.
  pose proof (init_stackable three_tiles None three_tiles_stackable None) as H.
  destruct (offsets_do_not_affect_batch three_tiles None (Some two_offsets)
              None (Some [100; 200]) _ H) as (_ & _ & _ & self' & H' & Hb).
  eexists _, self'. split; [exact H|]. split; [exact H' | exact Hb].
Defined.

(** *** The divisor *)

Lemma np_maximum_choice (a b : float) : np_maximum a b = a ∨ np_maximum a b = b.
Proof. unfold np_maximum. destruct (_ || _)%bool; auto. Qed.

Lemma np_maximum_bound (a b : float) :
  value a ≠ XNaN → value b ≠ XNaN →
  value (np_maximum a b) ≠ XNaN
  ∧ xle (value a) (value (np_maximum a b))
  ∧ xle (value b) (value (np_maximum a b)).
Proof.
  intros Ha Hb. unfold np_maximum.
  rewrite (proj2 (is_nan_false_value a) Ha), orb_false_r.
  destruct (PrimFloat.leb b a) eqn:E.
  - apply leb_value in E. auto using xle_refl.
  - destruct (xle_total _ _ Ha Hb) as [H | H]; [auto using xle_refl|].
    apply leb_value in H. congruence.
Qed.

Lemma np_maximum_nan (a b : float) :
  value a = XNaN ∨ value b = XNaN → value (np_maximum a b) = XNaN.
Proof.
  unfold np_maximum. intros [Ha | Hb].
  - now rewrite (proj2 (is_nan_value a) Ha), orb_true_r.
  - destruct (PrimFloat.leb b a) eqn:E.
    + apply leb_value, xle_not_nan in E as [E _]. contradiction.
    + cbn. destruct (PrimFloat.is_nan a) eqn:Ea;
        [now apply is_nan_value | exact Hb].
Qed.

Lemma fold_np_maximum_in (xs : list float) :
  ∀ acc, In (fold_left np_maximum xs acc) (acc :: xs).
Proof.
  induction xs as [| x xs IH]; intros acc; cbn [fold_left]; [now left|].
  destruct (IH (np_maximum acc x)) as [H | H].
  - rewrite <- H.
    destruct (np_maximum_choice acc x) as [-> | ->]; [now left | right; now left].
  - right. now right.
Qed.

Lemma fold_np_maximum_bound (xs : list float) :
  ∀ acc, value acc ≠ XNaN → (∀ x, In x xs → value x ≠ XNaN) →
  value (fold_left np_maximum xs acc) ≠ XNaN
  ∧ ∀ x, In x (acc :: xs) → xle (value x) (value (fold_left np_maximum xs acc)).
Proof.
  induction xs as [| y xs IH]; intros acc Hacc Hxs; cbn [fold_left].
  - split; [exact Hacc|]. intros x [<- | []]. now apply xle_refl.
  - assert (Hy : value y ≠ XNaN) by (apply Hxs; now left).
    destruct (np_maximum_bound acc y Hacc Hy) as (Hm & Ha & Hb).
    destruct (IH (np_maximum acc y) Hm (λ x Hx, Hxs x (or_intror Hx)))
      as [Hn Hle].
    split; [exact Hn|]. intros x [<- | [<- | Hx]].
    + eapply xle_trans; [exact Ha | apply Hle; now left].
    + eapply xle_trans; [exact Hb | apply Hle; now left].
    + apply Hle. now right.
Qed.

Lemma fold_np_maximum_nan (xs : list float) :
  ∀ acc, value acc = XNaN ∨ (∃ x, In x xs ∧ value x = XNaN) →
  value (fold_left np_maximum xs acc) = XNaN.
Proof.
  induction xs as [| y xs IH]; intros acc H; cbn [fold_left].
  - destruct H as [H | (x & [] & _)]. exact H.
  - apply IH. destruct H as [H | (x & [<- | Hx] & Hv)].
    + left. apply np_maximum_nan. now left.
    + left. apply np_maximum_nan. now right.
    + right. eauto.
Qed.

Lemma np_max_in (image : array3) (m : float) :
  np_max image = Ok m → In m (flat image).
Proof.
  unfold np_max. destruct (flat image) as [| y ys]; [discriminate|].
  intros [= <-]. apply fold_np_maximum_in.
Qed.

(** X13: the divisor [np.max(image)] is one of the scalars of the image
    itself; on an image without NaN it is not NaN and no scalar of the image
    is greater. *)
Theorem np_max_is_attained_bound (image : array3) (m : float) :
  np_max image = Ok m →
  In m (flat image)
  ∧ ((∀ x, In x (flat image) → PrimFloat.is_nan x = false) →
     PrimFloat.is_nan m = false
     ∧ ∀ x, In x (flat image) → PrimFloat.leb x m = true).
Proof.
  intros Hm. split; [now apply np_max_in|]. revert Hm.
  unfold np_max. destruct (flat image) as [| y ys]; [discriminate|].
  intros [= <-] Hfree.
  destruct (fold_np_maximum_bound ys y) as [Hn Hle].
  - apply is_nan_false_value, Hfree. now left.
  - intros x Hx. apply is_nan_false_value, Hfree. now right.
  - split; [now apply is_nan_false_value|].
    intros x Hx. apply leb_value, Hle, Hx.
Qed.

Lemma np_max_is_attained_bound_witness :
  np_max tile_b = Ok 50%float ∧ In 50%float (flat tile_b).
Proof.
  split; [reflexivity|].
  apply (np_max_is_attained_bound tile_b 50%float). reflexivity.
Defined.

(** *** NaN and all-zero images *)

Lemma np_max_nan (image : array3) (x : float) :
  In x (flat image) → PrimFloat.is_nan x = true →
  ∃ m, np_max image = Ok m ∧ PrimFloat.is_nan m = true.
Proof.
  unfold np_max. intros Hx Hnan%is_nan_value.
  destruct (flat image) as [| y ys]; [inversion Hx|].
  eexists; split; [reflexivity|]. apply is_nan_value, fold_np_maximum_nan.
  destruct Hx as [<- | Hx]; eauto.
Qed.

Lemma div_nan (x m : float) :
  PrimFloat.is_nan m = true → PrimFloat.is_nan (PrimFloat.div x m) = true.
Proof.
  rewrite !is_nan_value. unfold value. rewrite div_spec.
  destruct (Prim2SF m); try discriminate. intros _.
  unfold SF64div, SFdiv. now destruct (Prim2SF x).
Qed.

Lemma entry_in_flat (image : array3) (c h w : nat) row px x :
  image !! h = Some row → row !! w = Some px → px !! c = Some x →
  In x (flat image).
Proof.
  intros Hh Hw Hx. apply list_elem_of_lookup_2, list_elem_of_In in Hh, Hw, Hx.
  unfold flat. apply in_concat. exists px. split; [|exact Hx].
  apply in_concat. exists row. auto.
Qed.

Lemma image_tensor_entry_div (image : array3) (c h w : nat) row px x :
  (c < length (List.hd [] (List.hd [] image)))%nat →
  image !! h = Some row → row !! w = Some px → px !! c = Some x →
  ∃ m, np_max image = Ok m
    ∧ entry (image_tensor image) c h w = Some (PrimFloat.div x m).
Proof.
  intros Hc Hh Hw Hx.
  destruct (image_tensor_entry image c h w row px x Hc Hh Hw Hx)
    as (m & plane & line & Hm & Hp & Hl & He).
  exists m. split; [exact Hm|]. unfold entry. rewrite Hp. cbn. rewrite Hl. exact He.
Qed.

Lemma stackable_with_tile_a (a : array3) :
  shape a = shape tile_a → flat a ≠ [] → stackable [a; tile_a].
Proof.
  intros Hs Hf. split; [discriminate|]. split.
  - intros x y Hx Hy.
    repeat (apply elem_of_cons in Hx as [-> | Hx]);
    repeat (apply elem_of_cons in Hy as [-> | Hy]);
    solve [reflexivity | exact Hs | symmetry; exact Hs | inversion Hx | inversion Hy].
  - intros x Hx.
    repeat (apply elem_of_cons in Hx as [-> | Hx]);
    solve [exact Hf | discriminate | inversion Hx].
Defined.

(** X14: a NaN anywhere in an image does not make construction raise; the
    divisor of that image is NaN, and so is every entry of its tensor that
    comes from a scalar of the image. *)
Theorem nan_poisons_own_tensor
    (image_list : list array3) (offsets : option (list (list Z)))
    (fis : option (list Z)) (i : nat) (image : array3) (x : float) :
  stackable image_list → image_list !! i = Some image →
  In x (flat image) → PrimFloat.is_nan x = true →
  ∃ self t m, PredictionInput.init image_list offsets fis = Ok self
    ∧ np_max image = Ok m ∧ PrimFloat.is_nan m = true
    ∧ PredictionInput.batch_image_tensor self !! i = Some t
    ∧ ∀ (c h w : nat) row px y,
        (c < length (List.hd [] (List.hd [] image)))%nat →
        image !! h = Some row → row !! w = Some px → px !! c = Some y →
        ∃ z, entry t c h w = Some z ∧ PrimFloat.is_nan z = true.
Proof.
  intros Hst Hi Hx Hnan.
  rewrite (init_stackable image_list fis Hst offsets).
  destruct (np_max_nan image x Hx Hnan) as (m & Hm & Hnan').
  eexists _, (image_tensor image), m. split; [reflexivity|]. cbn.
  split; [exact Hm|]. split; [exact Hnan'|].
  split; [now rewrite list_lookup_fmap, Hi|].
  intros c h w row px y Hc Hh Hw Hy.
  destruct (image_tensor_entry_div image c h w row px y Hc Hh Hw Hy)
    as (m' & Hm' & He).
  assert (m' = m) as -> by congruence.
  exists (PrimFloat.div y m). split; [exact He | now apply div_nan].
Qed.

Lemma nan_poisons_own_tensor_witness :
  stackable [tile_nan; tile_a]
  ∧ ∃ self t m, PredictionInput.init [tile_nan; tile_a] None None = Ok self
      ∧ np_max tile_nan = Ok m ∧ PrimFloat.is_nan m = true
      ∧ PredictionInput.batch_image_tensor self !! 0%nat = Some t
      ∧ ∃ z, entry t 2 0 1 = Some z ∧ PrimFloat.is_nan z = true.
Proof.
  assert (Hst : stackable [tile_nan; tile_a])
    by (apply stackable_with_tile_a; [reflexivity | discriminate]).
  split; [exact Hst|].
  destruct (nan_poisons_own_tensor [tile_nan; tile_a] None None 0 tile_nan
              PrimFloat.nan Hst eq_refl (or_introl eq_refl) eq_refl)
    as (self & t & m & Hinit & Hm & Hnan & Ht & Hall).
  exists self, t, m. split; [exact Hinit|]. split; [exact Hm|].
  split; [exact Hnan|]. split; [exact Ht|].
  apply (Hall 2%nat 0%nat 1%nat
           [[PrimFloat.nan; 1%float; 2%float]; [3%float; 4%float; 5%float]]
           [3%float; 4%float; 5%float] 5%float); [cbn; lia | | |]; reflexivity.
Defined.

(** X15: an all-zero image does not make construction raise; its divisor
    is zero and every entry of its tensor that comes from a scalar of the
    image is NaN (zero divided by zero). *)
Theorem all_zero_image_gives_nan
    (image_list : list array3) (offsets : option (list (list Z)))
    (fis : option (list Z)) (i : nat) (image : array3) :
  stackable image_list → image_list !! i = Some image →
  (∀ x, In x (flat image) → x = 0%float) →
  ∃ self t, PredictionInput.init image_list offsets fis = Ok self
    ∧ np_max image = Ok 0%float
    ∧ PredictionInput.batch_image_tensor self !! i = Some t
    ∧ ∀ (c h w : nat) row px y,
        (c < length (List.hd [] (List.hd [] image)))%nat →
        image !! h = Some row → row !! w = Some px → px !! c = Some y →
        entry t c h w = Some PrimFloat.nan.
Proof.
  intros Hst Hi Hzero.
  rewrite (init_stackable image_list fis Hst offsets).
  assert (Hflat : flat image ≠ []).
  { destruct Hst as (_ & _ & Hflat). apply Hflat.
    eapply list_elem_of_lookup_2; exact Hi. }
  assert (Hmax : np_max image = Ok 0%float).
  { destruct (np_max image) as [m | e] eqn:E.
    - f_equal. apply Hzero. now apply np_max_in.
    - unfold np_max in E. destruct (flat image); [done | discriminate]. }
  eexists _, (image_tensor image). split; [reflexivity|]. cbn.
  split; [exact Hmax|]. split; [now rewrite list_lookup_fmap, Hi|].
  intros c h w row px y Hc Hh Hw Hy.
  destruct (image_tensor_entry_div image c h w row px y Hc Hh Hw Hy)
    as (m & Hm & He).
  assert (m = 0%float) as -> by congruence.
  rewrite (Hzero y (entry_in_flat image c h w row px y Hh Hw Hy)) in He.
  exact He.
Qed.

Lemma all_zero_image_gives_nan_witness :
  stackable [tile_zero; tile_a]
  ∧ ∃ self t, PredictionInput.init [tile_zero; tile_a] None None = Ok self
      ∧ PredictionInput.batch_image_tensor self !! 0%nat = Some t
      ∧ entry t 1 0 0 = Some PrimFloat.nan.
Proof.
  assert (Hst : stackable [tile_zero; tile_a])
    by (apply stackable_with_tile_a; [reflexivity | discriminate]).
  split; [exact Hst|].
  destruct (all_zero_image_gives_nan [tile_zero; tile_a] None None 0 tile_zero
              Hst eq_refl) as (self & t & Hinit & _ & Ht & Hall).
  { intros x Hx. cbn in Hx.
    repeat (destruct Hx as [<- | Hx]; [reflexivity|]). destruct Hx. }
  exists self, t. split; [exact Hinit|]. split; [exact Ht|].
  apply (Hall 1%nat 0%nat 0%nat
           [[0%float; 0%float; 0%float]; [0%float; 0%float; 0%float]]
           [0%float; 0%float; 0%float] 0%float); [cbn; lia | | |]; reflexivity.
Defined.

(** ** The batch tensor *)

(** What [np.max] returns on an array with at least one scalar: a scalar of
    the array; NaN when the array holds a NaN; otherwise a number that no
    scalar of the array exceeds. *)
Lemma np_max_spec (image : array3) (m : float) :
  np_max image = Ok m →
  In m (flat image)
  ∧ ((∃ x, In x (flat image) ∧ PrimFloat.is_nan x = true) →
     PrimFloat.is_nan m = true)
  ∧ ((∀ x, In x (flat image) → PrimFloat.is_nan x = false) →
     PrimFloat.is_nan m = false
     ∧ ∀ x, In x (flat image) → PrimFloat.leb x m = true).
Proof.
  intros Hm. split; [now apply np_max_in|]. split.
  - intros (x & Hx & Hnan).
    destruct (np_max_nan image x Hx Hnan) as (m' & Hm' & Hnan').
    congruence.
  - revert Hm. unfold np_max. destruct (flat image) as [| y ys]; [discriminate|].
    intros [= <-] Hfree.
    destruct (fold_np_maximum_bound ys y) as [Hn Hle].
    + apply is_nan_false_value, Hfree. now left.
    + intros x Hx. apply is_nan_false_value, Hfree. now right.
    + split; [now apply is_nan_false_value|].
      intros x Hx. apply leb_value, Hle, Hx.
Qed.

(** The maximum is found wherever it stands in the array. *)
Example np_max_in_the_middle :
  np_max [[[1%float; 7%float; 3%float]; [2%float; 5%float; 4%float]]]
  = Ok 7%float.
Proof. reflexivity. Qed.

(** C4: the batch tensor has one entry per image, in the order of
    [image_list]; entry [i] is image [i] divided by the maximum of image [i]
    itself and laid out channel first.  The divisor [m] of an image is a
    scalar of that image; no scalar of the image is greater than it (on an
    image without NaN), and it is NaN when the image holds a NaN; entry
    [i][c][h][w] of the batch is scalar [h][w][c] of image [i] over that
    divisor.  When the offsets are omitted, empty, or as many as the images,
    [shift_amount_list] has one entry per batch index. *)
Theorem batch_tensor_is_per_image
    (image_list : list array3) (full_image_size : option (list Z))
    (Hstackable : stackable image_list) (offsets : option (list (list Z))) :
  ∃ self, PredictionInput.init image_list offsets full_image_size = Ok self
    ∧ length (PredictionInput.batch_image_tensor self) = length image_list
    ∧ (∀ (i : nat) (image : array3), image_list !! i = Some image →
         ∃ m, np_max image = Ok m
           ∧ In m (flat image)
           ∧ ((∀ x, In x (flat image) → PrimFloat.is_nan x = false) →
              PrimFloat.is_nan m = false
              ∧ ∀ x, In x (flat image) → PrimFloat.leb x m = true)
           ∧ ((∃ x, In x (flat image) ∧ PrimFloat.is_nan x = true) →
              PrimFloat.is_nan m = true)
           ∧ PredictionInput.batch_image_tensor self !! i
             = Some (to_float_tensor (np_divide image m)))
    ∧ (∀ (i c h w : nat) (image : array3) row px x,
         image_list !! i = Some image →
         (c < length (List.hd [] (List.hd [] image)))%nat →
         image !! h = Some row → row !! w = Some px → px !! c = Some x →
         ∃ m tensor plane line, np_max image = Ok m
           ∧ PredictionInput.batch_image_tensor self !! i = Some tensor
           ∧ tensor !! c = Some plane ∧ plane !! h = Some line
           ∧ line !! w = Some (PrimFloat.div x m))
    ∧ (match offsets with
       | Some l => l = [] ∨ length l = length image_list
       | None => True
       end →
       length (PredictionInput.shift_amount_list self)
       = length (PredictionInput.batch_image_tensor self)).
Proof.
  rewrite (init_stackable image_list full_image_size Hstackable offsets).
  eexists; split; [reflexivity|]. cbn. split; [apply length_map|].
  split; [|split].
  - intros i image Hi.
    destruct Hstackable as (_ & _ & Hflat).
    assert (Hne : flat image ≠ [])
      by (apply Hflat; eapply list_elem_of_lookup_2; exact Hi).
    destruct (np_max image) as [m | e] eqn:Hm.
    + destruct (np_max_spec image m Hm) as (Hin & Hnan & Hbound).
      exists m. split; [reflexivity|]. split; [exact Hin|].
      split; [exact Hbound|]. split; [exact Hnan|].
      rewrite list_lookup_fmap, Hi. cbn. unfold image_tensor. now rewrite Hm.
    + unfold np_max in Hm. destruct (flat image); [done | discriminate].
  - intros i c h w image row px x Hi Hc Hh Hw Hx.
    destruct (image_tensor_entry image c h w row px x Hc Hh Hw Hx)
      as (m & plane & line & Hm & Hp & Hl & He).
    exists m, (image_tensor image), plane, line.
    rewrite list_lookup_fmap, Hi. auto.
  - intros Hlen. rewrite length_map.
    destruct offsets as [[| o l] |]; cbn.
    + now rewrite length_map, length_seq.
    + destruct Hlen as [Hl | Hl]; [discriminate | exact Hl].
    + now rewrite length_map, length_seq.
Qed.

Lemma batch_tensor_is_per_image_witness :
  stackable three_tiles ∧
  ∃ self m, PredictionInput.init three_tiles (Some three_offsets) None = Ok self
    ∧ length (PredictionInput.batch_image_tensor self) = 3%nat
    ∧ length (PredictionInput.shift_amount_list self) = 3%nat
    ∧ np_max tile_b = Ok m ∧ In m (flat tile_b)
    ∧ PrimFloat.leb 50%float m = true
    ∧ PredictionInput.batch_image_tensor self !! 1%nat
      = Some (to_float_tensor (np_divide tile_b m)).
Proof.
  split; [exact three_tiles_stackable|].
  destruct (batch_tensor_is_per_image three_tiles None three_tiles_stackable
              (Some three_offsets)) as (self & Hinit & Hlen & Himg & _ & Halign).
  destruct (Himg 1%nat tile_b eq_refl) as (m & Hm & Hin & Hbound & _ & Hb).
  exists self, m. split; [exact Hinit|]. split; [exact Hlen|].
  split; [rewrite Halign; [exact Hlen | right; reflexivity]|].
  split; [exact Hm|]. split; [exact Hin|]. split; [|exact Hb].
  apply Hbound.
  - intros x Hx. cbn in Hx.
    repeat (destruct Hx as [<- | Hx]; [reflexivity|]). destruct Hx.
  - left. reflexivity.
Defined.
